(** * mos_udp_log_catcher: the record parser and the per-device file manager

    A shallow embedding of [parseLine], [processLine], the packet loop of
    [UDPLog] and of [deviceInfo.Open] / [FileManager.WriteLine], followed by
    the properties of the design document that were checked against them.

    Conventions.
    - Go's [[]byte] and [string] are both [list ascii] (written [bytes]); a
      literal is written [B "..."].
    - Go's unsigned integers are [Z] with their range checked where the code
      checks it.
    - [float64] is the IEEE 754 binary64 format of [SpecFloat]
      (precision 53, emax 1024).
    - Calls to the operating system and to klog are nodes of a command tree
      ([prog]); a tree is run against an arbitrary handler, which records
      the calls that were made. *)

From Stdlib Require Import ZArith List Ascii String Lia Bool DecimalString.
From Stdlib Require Import Floats.SpecFloat.
From stdpp Require Import gmap strings list.

Open Scope Z_scope.

Abbreviation bytes := (list ascii).

(** A byte-string literal. *)
Definition B (s : string) : bytes := list_ascii_of_string s.

(** ** The parts of Go's [bytes] package the program calls *)

Module GoBytes.

(** [bytes.Cut(s, sep)] for a one-byte separator: the text before the first
    [sep], the text after it, and whether [sep] occurs. *)
Fixpoint Cut (s : bytes) (sep : ascii) : bytes * bytes * bool :=
  match s with
  | [] => ([], [], false)
  | c :: s' =>
      if Ascii.eqb c sep then ([], s', true)
      else let '(before, after, found) := Cut s' sep in
           (c :: before, after, found)
  end.

(** [bytes.Split(s, sep)] for a one-byte separator: one more part than
    there are separators, so the empty input gives one empty part. *)
Fixpoint Split (s : bytes) (sep : ascii) : list bytes :=
  match s with
  | [] => [[]]
  | c :: s' =>
      if Ascii.eqb c sep then [] :: Split s' sep
      else match Split s' sep with
           | p :: ps => (c :: p) :: ps
           | [] => [[c]]
           end
  end.

Definition in_cutset (cutset : bytes) (c : ascii) : bool :=
  existsb (Ascii.eqb c) cutset.

(** [bytes.TrimRight(s, cutset)]: drops the longest suffix made of bytes of
    [cutset]. *)
Fixpoint TrimRight (s : bytes) (cutset : bytes) : bytes :=
  match s with
  | [] => []
  | c :: s' =>
      match TrimRight s' cutset with
      | [] => if in_cutset cutset c then [] else [c]
      | t => c :: t
      end
  end.

(** [Buffer.ReadBytes(delim)]: the bytes up to and including the first
    [delim] (the whole rest when there is none), as a fresh slice, and the
    unread rest of the buffer. *)
Fixpoint ReadBytes (buf : bytes) (delim : ascii) : bytes * bytes :=
  match buf with
  | [] => ([], [])
  | c :: buf' =>
      if Ascii.eqb c delim then ([c], buf')
      else let '(line, rest) := ReadBytes buf' delim in (c :: line, rest)
  end.

End GoBytes.

(** ** The parts of [strconv] and of [float64] arithmetic the parser uses *)

Module Strconv.

Definition is_digit (c : ascii) : bool :=
  (Ascii.leb "0" c && Ascii.leb c "9")%char.

Definition digit_val (c : ascii) : Z := Z.of_N (N_of_ascii c) - 48.

(** The digit loop of [strconv.ParseUint(s, 10, bitSize)], on 64-bit
    words: [None] as soon as the function would return an error. *)
Fixpoint ParseUint_loop (s : bytes) (bitSize : Z) (n : Z) : option Z :=
  match s with
  | [] => Some n
  | c :: s' =>
      if negb (is_digit c) then None                   (* syntax error *)
      else
        let cutoff := (2 ^ 64 - 1) / 10 + 1 in
        let maxVal := 2 ^ bitSize - 1 in
        if cutoff <=? n then None                       (* range error *)
        else
          let n10 := (n * 10) mod 2 ^ 64 in
          let n1 := (n10 + digit_val c) mod 2 ^ 64 in
          if (n1 <? n10) || (maxVal <? n1) then None    (* range error *)
          else ParseUint_loop s' bitSize n1
  end.

(** [strconv.ParseUint(s, 10, bitSize)]; [None] stands for [err != nil]. *)
Definition ParseUint (s : bytes) (bitSize : Z) : option Z :=
  match s with
  | [] => None
  | _ => ParseUint_loop s bitSize 0
  end.

(** The number a string of decimal digits denotes. *)
Definition decimal_value (s : bytes) : Z :=
  fold_left (fun acc c => acc * 10 + digit_val c) s 0.

Definition all_digits (s : bytes) : Prop :=
  Forall (fun c => is_digit c = true) s.

(** [fmt.Sprintf("%d", n)] for an unsigned [n]. *)
Definition Sprintf_d (n : Z) : bytes :=
  B (NilZero.string_of_uint (N.to_uint (Z.to_N n))).

End Strconv.

Module Float64.

Definition float64 : Type := spec_float.
Definition prec : Z := 53.
Definition emax : Z := 1024.

(** The float64 nearest to an integer (exact below 2^53). *)
Definition of_Z (z : Z) : float64 :=
  match z with
  | Z0 => S754_zero false
  | Zpos p => binary_normalize prec emax z 0 false
  | Zneg p => SFopp (binary_normalize prec emax (Zpos p) 0 false)
  end.

Definition mul : float64 -> float64 -> float64 := SFmul prec emax.
Definition div : float64 -> float64 -> float64 := SFdiv prec emax.

(** The integer part of a finite float, rounded toward zero. *)
Definition trunc (f : float64) : option Z :=
  match f with
  | S754_zero _ => Some 0
  | S754_finite s m e =>
      let mag := if 0 <=? e then Zpos m * 2 ^ e else Zpos m / 2 ^ (- e) in
      Some (if s then - mag else mag)
  | S754_infinity _ | S754_nan => None
  end.

(** The integer nearest to a finite float, halves away from zero
    (Go's [math.Round]). *)
Definition round (f : float64) : option Z :=
  match f with
  | S754_zero _ => Some 0
  | S754_finite s m e =>
      let mag := if 0 <=? e then Zpos m * 2 ^ e
                 else (2 * Zpos m + 2 ^ (- e)) / 2 ^ (- e + 1) in
      Some (if s then - mag else mag)
  | S754_infinity _ | S754_nan => None
  end.

(** Whether [uint64(f)] is defined by the language: the truncated value
    fits the type. *)
Definition fits_uint64 (f : float64) : bool :=
  match trunc f with
  | Some z => (0 <=? z) && (z <? 2 ^ 64)
  | None => false
  end.

Definition is_negative (f : float64) : bool := SFltb f (S754_zero false).

End Float64.

(** ** What the program takes from its platform

    [strconv.ParseFloat], [time.Time.Format] and the result of converting an
    out-of-range float to [uint64] (which the language leaves to the
    implementation) are not code of this program; the embedding is
    parametric in them. *)

Class GoRuntime := {
  Time : Type;
  UDPAddr : Type;
  (** [ts.Format(layout)] *)
  time_Format : Time -> bytes -> bytes;
  (** [strconv.ParseFloat(s, 64)]; [None] stands for [err != nil] *)
  ParseFloat : bytes -> option Float64.float64;
  (** [uint64(f)] when the truncated [f] does not fit the type *)
  uint64_out_of_range : Float64.float64 -> Z
}.

(** ** The record parser *)

Section Parser.
Context {RT : GoRuntime}.

(** The global [tsFormat], set once at start-up. *)
Variable tsFormat : bytes.

(** [LineInfo], field for field. *)
Record LineInfo := {
  Src : UDPAddr;
  Timestamp : Time;
  DeviceID : bytes;
  SeqNum : Z;
  UptimeMs : Z;
  FD : Z;
  Level : Z;
  Msg : bytes;
  TimestampStr : bytes;
  DeviceIDSafe : bytes;
  Year : bytes;
  Month : bytes;
  Day : bytes;
  LevelChar : bytes
}.

(** The errors of [parseLine], one per [fmt.Errorf] of the function. *)
Inductive ParseError :=
| MissingDelimiter        (* "missing msg delimiter" *)
| MalformedHeader         (* "invalid number of parts" *)
| InvalidDeviceId         (* "invalid device id" *)
| InvalidSequenceNumber   (* "invalid seqnum" *)
| InvalidUptime           (* "invalid uptime" *)
| InvalidFileDescriptor   (* "invalid fd" *)
| InvalidLevel.           (* "invalid level" *)

Definition ParseError_text (e : ParseError) : bytes :=
  match e with
  | MissingDelimiter => B "missing msg delimiter"
  | MalformedHeader => B "invalid number of parts"
  | InvalidDeviceId => B "invalid device id"
  | InvalidSequenceNumber => B "invalid seqnum"
  | InvalidUptime => B "invalid uptime"
  | InvalidFileDescriptor => B "invalid fd"
  | InvalidLevel => B "invalid level"
  end.

(** The table [safeChars], as [main] fills it. *)
Definition safeChars (c : ascii) : bool :=
  ((Ascii.leb "a" c && Ascii.leb c "z") || (Ascii.leb "A" c && Ascii.leb c "Z")
   || (Ascii.leb "0" c && Ascii.leb c "9")
   || Ascii.eqb c "-" || Ascii.eqb c "_" || Ascii.eqb c "." || Ascii.eqb c ","
   || Ascii.eqb c " ")%char.

(** What the sanitizing loop makes of one byte. *)
Definition sanitize_byte (c : ascii) : ascii :=
  if safeChars c then c else "_"%char.

(** One iteration of the loop over [parts[0]]: [parts[0]] is the slice
    [line[0:len]], so the assignment [parts[0][i] = '_'] writes [line[i]]. *)
Definition sanitize_at (line : bytes) (i : nat) : bytes :=
  match line !! i with
  | Some c => if safeChars c then line else <[i := "_"%char]> line
  | None => line
  end.

(** [for i, c := range parts[0] { if !safeChars[c] { parts[0][i] = '_' } }]
    with [len(parts[0]) = n]. *)
Definition sanitize_in_place (n : nat) (line : bytes) : bytes :=
  foldl sanitize_at line (seq 0 n).

(** [uint64(f)]: truncation toward zero when the result fits. *)
Definition uint64_of_float (f : Float64.float64) : Z :=
  match Float64.trunc f with
  | Some z => if (0 <=? z) && (z <? 2 ^ 64) then z
              else uint64_out_of_range f mod 2 ^ 64
  | None => uint64_out_of_range f mod 2 ^ 64
  end.

(** [FormatTimestamp] *)
Definition FormatTimestamp (ts : Time) : bytes :=
  if (length tsFormat =? 0)%nat then [] else time_Format ts tsFormat.

Definition levelChar (level : Z) : bytes :=
  match level with
  | 0 => B "E"
  | 1 => B "W"
  | 2 => B "I"
  | 3 => B "D"
  | 4 => B "V"
  | _ => Strconv.Sprintf_d (level mod 10)
  end.

(** [parseLine]. The second component is the content of the buffer [line]
    when the function returns: the parts are sub-slices of it and the
    sanitizing loop writes through [parts[0]].

    [ts.Format("20060102")] has at least eight bytes (a year is printed
    with four digits or more), so the three slice expressions on it are
    in range and are taken with [take] and [drop]. *)
Definition parseLine (ts : Time) (src : UDPAddr) (line : bytes)
  : (ParseError + LineInfo) * bytes :=
  let '(infoStr, msg, found) := GoBytes.Cut line "|" in
  if negb found then (inl MissingDelimiter, line) else
  let parts := GoBytes.Split infoStr " " in
  if negb (length parts =? 5)%nat then (inl MalformedHeader, line) else
  let part i := nth i parts [] in
  let n0 := length (part 0%nat) in
  if negb ((0 <? n0)%nat && (n0 <=? 50)%nat) then (inl InvalidDeviceId, line) else
  let deviceID := part 0%nat in
  match Strconv.ParseUint (part 1%nat) 64 with
  | None => (inl InvalidSequenceNumber, line)
  | Some seqNum =>
  match ParseFloat (part 2%nat) with
  | None => (inl InvalidUptime, line)
  | Some v =>
  let uptimeMs := uint64_of_float (Float64.mul v (Float64.of_Z 1000)) in
  match Strconv.ParseUint (part 3%nat) 32 with
  | None => (inl InvalidFileDescriptor, line)
  | Some fd =>
  match Strconv.ParseUint (part 4%nat) 32 with
  | None => (inl InvalidLevel, line)
  | Some level =>
  let line' := sanitize_in_place n0 line in
  let ds := time_Format ts (B "20060102") in
  (inr {| Src := src;
          Timestamp := ts;
          DeviceID := deviceID;
          SeqNum := seqNum;
          UptimeMs := uptimeMs;
          FD := fd;
          Level := level;
          Msg := msg;
          TimestampStr := FormatTimestamp ts;
          DeviceIDSafe := take n0 line';
          Year := take 4 ds;
          Month := take 2 (drop 4 ds);
          Day := take 2 (drop 6 ds);
          LevelChar := levelChar level |},
   line')
  end end end end.

(** The wire format of one record:
    [<id> <seq> <up> <fd> <lvl>|<msg>]. *)
Definition record_line (id seq up fd lvl msg : bytes) : bytes :=
  id ++ " "%char :: seq ++ " "%char :: up ++ " "%char :: fd ++ " "%char :: lvl
     ++ "|"%char :: msg.

(** A header field holds neither of the two separators. *)
Definition no_sep (s : bytes) : Prop := ~ In " "%char s /\ ~ In "|"%char s.

End Parser.

(** ** Calls to the operating system and to klog *)

(** A Go [error], by its text. *)
Definition error : Type := bytes.

(** An open [*os.File], by its descriptor. *)
Definition File : Type := nat.

(** [errors.Annotatef(err, msg)] *)
Definition Annotatef (err : error) (msg : bytes) : error := msg ++ B ": " ++ err.

Module Filepath.

Definition is_dot (c : bytes) : bool := bool_decide (c = B ".").
Definition is_dotdot (c : bytes) : bool := bool_decide (c = B "..").

(** One step of [filepath.Clean] on the elements seen so far (last element
    first): empty and [.] elements vanish, [..] removes the element before
    it, stays when there is none to remove in a relative path, and vanishes
    at the root. *)
Definition clean_step (rooted : bool) (acc : list bytes) (c : bytes) : list bytes :=
  if bool_decide (c = []) || is_dot c then acc
  else if is_dotdot c then
    match acc with
    | [] => if rooted then [] else [c]
    | p :: acc' => if is_dotdot p then c :: acc else acc'
    end
  else c :: acc.

Fixpoint join_with (sep : ascii) (l : list bytes) : bytes :=
  match l with
  | [] => []
  | [c] => c
  | c :: l' => c ++ sep :: join_with sep l'
  end.

Definition is_rooted (path : bytes) : bool :=
  match path with
  | c :: _ => Ascii.eqb c "/"
  | [] => false
  end.

(** The elements of the cleaned path, first element first. *)
Definition clean_elements (path : bytes) : list bytes :=
  rev (fold_left (clean_step (is_rooted path)) (GoBytes.Split path "/") []).

(** [filepath.Clean], with [/] as the separator. *)
Definition Clean (path : bytes) : bytes :=
  let body := join_with "/" (clean_elements path) in
  if is_rooted path then "/"%char :: body
  else match body with [] => B "." | _ => body end.

(** [filepath.Join] *)
Definition Join (elems : list bytes) : bytes :=
  match filter (fun e => e <> []) elems with
  | [] => []
  | es => Clean (join_with "/" es)
  end.

(** The path up to and including its last separator. *)
Fixpoint upto_last_sep (path : bytes) : bytes :=
  match path with
  | [] => []
  | c :: p' =>
      match upto_last_sep p' with
      | [] => if Ascii.eqb c "/" then [c] else []
      | d => c :: d
      end
  end.

(** [filepath.Dir] *)
Definition Dir (path : bytes) : bytes := Clean (upto_last_sep path).

(** [filepath.Base] *)
Definition Base (path : bytes) : bytes :=
  match path with
  | [] => B "."
  | _ =>
      match GoBytes.TrimRight path (B "/") with
      | [] => B "/"
      | p => List.last (GoBytes.Split p "/") []
      end
  end.

End Filepath.

Section Effects.
Context {RT : GoRuntime}.

(** The calls the file manager and the packet loop make, indexed by the
    type of what they return. *)
Inductive sys : Type -> Type :=
| MkdirAll (path : bytes) : sys (option error)       (* os.MkdirAll(path, 0o755) *)
| OpenFile (name : bytes) : sys (error + File)       (* O_APPEND|O_CREATE|O_WRONLY, 0o644 *)
| FileClose (f : File) : sys (option error)
| FileWrite (f : File) (data : bytes) : sys (option error)
| Readlink (name : bytes) : sys (error + bytes)
| Remove (name : bytes) : sys (option error)
| Symlink (oldname newname : bytes) : sys (option error)
| StdoutWrite (data : bytes) : sys (option error)
| TimeNow : sys Time
| KlogInfof (format : bytes) (args : list bytes) : sys unit
| KlogErrorf (format : bytes) (args : list bytes) : sys unit.

(** A command tree: a result, or a call and what to do with its answer. *)
Inductive prog (A : Type) : Type :=
| Ret (a : A)
| Vis {X : Type} (e : sys X) (k : X -> prog A).
Arguments Ret {A} a.
Arguments Vis {A X} e k.

Fixpoint bind {A C} (p : prog A) (f : A -> prog C) : prog C :=
  match p with
  | Ret a => f a
  | Vis e k => Vis e (fun x => bind (k x) f)
  end.

Definition call {X} (e : sys X) : prog X := Vis e Ret.

(** A call together with the answer it got. *)
Inductive event :=
| EvMkdirAll (path : bytes) (res : option error)
| EvOpenFile (name : bytes) (res : error + File)
| EvFileClose (f : File) (res : option error)
| EvFileWrite (f : File) (data : bytes) (res : option error)
| EvReadlink (name : bytes) (res : error + bytes)
| EvRemove (name : bytes) (res : option error)
| EvSymlink (oldname newname : bytes) (res : option error)
| EvStdoutWrite (data : bytes) (res : option error)
| EvTimeNow
| EvKlogInfof (format : bytes) (args : list bytes)
| EvKlogErrorf (format : bytes) (args : list bytes).

Definition observe {X} (e : sys X) : X -> event :=
  match e in sys X return X -> event with
  | MkdirAll path => EvMkdirAll path
  | OpenFile name => EvOpenFile name
  | FileClose f => EvFileClose f
  | FileWrite f data => EvFileWrite f data
  | Readlink name => EvReadlink name
  | Remove name => EvRemove name
  | Symlink o n => EvSymlink o n
  | StdoutWrite data => EvStdoutWrite data
  | TimeNow => fun _ => EvTimeNow
  | KlogInfof f a => fun _ => EvKlogInfof f a
  | KlogErrorf f a => fun _ => EvKlogErrorf f a
  end.

(** The environment: it answers every call and moves to a next state. *)
Definition handler (W : Type) : Type := forall X, sys X -> W -> X * W.

(** Running a tree: the result, the final state of the environment and the
    calls made, in order. *)
Fixpoint run {W A} (h : handler W) (p : prog A) (w : W) : A * W * list event :=
  match p with
  | Ret a => (a, w, [])
  | Vis e k =>
      let '(x, w1) := h _ e w in
      let '(a, w2, tr) := run h (k x) w1 in
      (a, w2, observe e x :: tr)
  end.

(** Kinds of events the properties speak about. *)
Definition is_file_write (ev : event) : bool :=
  match ev with EvFileWrite _ _ _ => true | _ => false end.

Definition is_write_to (f : File) (ev : event) : Prop :=
  exists data res, ev = EvFileWrite f data res.

Definition is_symlink_call (ev : event) : bool :=
  match ev with
  | EvReadlink _ _ | EvRemove _ _ | EvSymlink _ _ _ => true
  | _ => false
  end.

Definition is_klog_error (ev : event) : bool :=
  match ev with EvKlogErrorf _ _ => true | _ => false end.

(** A directory creation or a file open that failed. *)
Definition is_rotation_failure (ev : event) : bool :=
  match ev with
  | EvMkdirAll _ (Some _) | EvOpenFile _ (inl _) => true
  | _ => false
  end.

(** A file open that succeeded. *)
Definition is_file_opened (ev : event) : bool :=
  match ev with EvOpenFile _ (inr _) => true | _ => false end.

(** A write to a file that failed. *)
Definition is_write_failure (ev : event) : bool :=
  match ev with EvFileWrite _ _ (Some _) => true | _ => false end.

(** A write to standard output. *)
Definition is_stdout_write (ev : event) : bool :=
  match ev with EvStdoutWrite _ _ => true | _ => false end.

(** The bytes handed to file writes, in order. *)
Fixpoint written_data (tr : list event) : bytes :=
  match tr with
  | [] => []
  | EvFileWrite _ data _ :: rest => data ++ written_data rest
  | _ :: rest => written_data rest
  end.

End Effects.

Arguments Ret {RT A} a.
Arguments Vis {RT A X} e k.

Notation "x <- p ;; q" := (bind p (fun x => q))
  (at level 100, p at next level, right associativity).
Notation "p ;;; q" := (bind p (fun _ => q))
  (at level 100, right associativity).

(** ** The per-device file manager *)

Section FileManager.
Context {RT : GoRuntime}.

(** A parsed [text/template], by what executing it on a [LineInfo] does:
    the pieces of output it writes, one [Write] each, and the error that
    stopped it, if any. *)
Definition Template : Type := LineInfo -> list bytes * option error.

(** [execTmpl]: execution into a memory buffer, whose writes cannot fail. *)
Definition execTmpl (t : Template) (li : LineInfo) : error + bytes :=
  match t li with
  | (_, Some err) => inl err
  | (pieces, None) => inr (concat pieces)
  end.

(** [t.Execute(wr, li)] on a writer whose [Write] is [wr]: the pieces are
    written in order and the first failed write stops the execution. *)
Fixpoint write_pieces (wr : bytes -> prog (option error)) (pieces : list bytes)
  : prog (option error) :=
  match pieces with
  | [] => Ret None
  | p :: ps =>
      r <- wr p ;;
      match r with
      | Some err => Ret (Some err)
      | None => write_pieces wr ps
      end
  end.

Definition Execute (t : Template) (wr : bytes -> prog (option error))
           (li : LineInfo) : prog (option error) :=
  let '(pieces, failure) := t li in
  r <- write_pieces wr pieces ;;
  match r with
  | Some err => Ret (Some err)
  | None => Ret failure
  end.

(** [os.File.Write]; on a nil file it fails without a system call. *)
Definition File_Write (fd : option File) (data : bytes) : prog (option error) :=
  match fd with
  | Some f => call (FileWrite f data)
  | None => Ret (Some (B "invalid argument"))
  end.

Record deviceInfo := {
  fd : option File;
  fname : bytes;
  lastUsed : Time
}.

Definition set_fd (di : deviceInfo) (f : option File) : deviceInfo :=
  {| fd := f; fname := fname di; lastUsed := lastUsed di |}.
Definition set_fname (di : deviceInfo) (name : bytes) : deviceInfo :=
  {| fd := fd di; fname := name; lastUsed := lastUsed di |}.
Definition set_lastUsed (di : deviceInfo) (t : Time) : deviceInfo :=
  {| fd := fd di; fname := fname di; lastUsed := t |}.

(** [deviceInfo.Close] *)
Definition Close (di : deviceInfo) : prog (option error * deviceInfo) :=
  match fd di with
  | Some f =>
      call (KlogInfof (B "Closed %s") [fname di]) ;;;
      err <- call (FileClose f) ;;
      Ret (err, set_fd di None)
  | None => Ret (None, di)
  end.

(** The symlink part of [deviceInfo.Open] (lines 64 to 79). *)
Definition update_latest (latestNameTmpl : option Template) (li : LineInfo)
           (di : deviceInfo) : prog (option error * deviceInfo) :=
  match latestNameTmpl with
  | None => Ret (None, di)
  | Some lt =>
      match execTmpl lt li with
      | inl err =>
          Ret (Some (Annotatef err (B "Failed to execute file name template: " ++ err)), di)
      | inr latestName =>
          target <- call (Readlink latestName) ;;
          let latestBase := Filepath.Base (fname di) in
          let stale := match target with
                       | inl _ => true
                       | inr t => negb (bool_decide (t = latestBase))
                       end in
          if stale then
            call (Remove latestName) ;;;
            r <- call (Symlink latestBase latestName) ;;
            match r with
            | Some _ =>
                call (KlogErrorf (B "Failed to symlink %s to %s") [fname di; latestBase]) ;;;
                Ret (None, di)
            | None =>
                call (KlogInfof (B "%s -> %s") [latestName; latestBase]) ;;;
                Ret (None, di)
            end
          else Ret (None, di)
      end
  end.

(** [deviceInfo.Open]: the error returned and the handle as the call
    leaves it. *)
Definition Open (nameTmpl : Template) (latestNameTmpl : option Template)
           (li : LineInfo) (di : deviceInfo) : prog (option error * deviceInfo) :=
  match execTmpl nameTmpl li with
  | inl err =>
      Ret (Some (Annotatef err (B "Failed to execute file name template: " ++ err)), di)
  | inr name =>
      if bool_decide (fname di = name) && bool_decide (fd di <> None)
      then Ret (None, di)
      else
        closed <- (if bool_decide (fd di <> None) then Close di else Ret (None, di)) ;;
        let di := set_fname (snd closed) name in
        r <- call (MkdirAll (Filepath.Dir name)) ;;
        match r with
        | Some err => Ret (Some (Annotatef err (B "failed to create log dir")), di)
        | None =>
            r <- call (OpenFile (fname di)) ;;
            match r with
            | inl err => Ret (Some err, di)
            | inr f =>
                call (KlogInfof (B "Opened %s") [fname di]) ;;;
                let di := set_fd di (Some f) in
                update_latest latestNameTmpl li di
            end
        end
  end.

Record FileManager := {
  nameTmpl : Template;
  latestNameTmpl : option Template;
  recordTmpl : Template;
  devices : gmap bytes deviceInfo
}.

Definition set_device (fm : FileManager) (key : bytes) (di : deviceInfo) : FileManager :=
  {| nameTmpl := nameTmpl fm; latestNameTmpl := latestNameTmpl fm;
     recordTmpl := recordTmpl fm; devices := <[key := di]> (devices fm) |}.

(** [FileManager.WriteLine], inside its lock. The map holds pointers, so
    what [Open] and the last assignment do to the handle is stored back
    under the device's key. *)
Definition WriteLine (fm : FileManager) (li : LineInfo) : prog FileManager :=
  let key := DeviceIDSafe li in
  di <- match devices fm !! key with
        | Some di => Ret di
        | None =>
            now <- call TimeNow ;;
            Ret {| fd := None; fname := []; lastUsed := now |}
        end ;;
  opened <- Open (nameTmpl fm) (latestNameTmpl fm) li di ;;
  let '(err, di) := opened in
  match err with
  | Some e =>
      call (KlogErrorf (B "Failed to open log file: %v") [e]) ;;;
      Ret (set_device fm key di)
  | None =>
      Execute (recordTmpl fm) (File_Write (fd di)) li ;;;
      File_Write (fd di) [ "010"%char ] ;;;
      now <- call TimeNow ;;
      Ret (set_device fm key (set_lastUsed di now))
  end.

(** The two file-name templates [NewFileManager] parses, for the directory
    [dir]: [filepath.Join(dir, "{{.DeviceIDSafe}}", deviceLogName)] and the
    same with [latestDeviceLogName]. [Join] cleans [dir] and puts a
    separator after it; [name_prefix] is that constant text in front of the
    first field, read off the join of [dir] with a one-byte element. *)
Definition name_prefix (dir : bytes) : bytes :=
  match Filepath.Join [dir; B "x"] with
  | [] => []
  | p => removelast p
  end.

Definition deviceLogTmpl (dir : bytes) : Template :=
  fun li => ([name_prefix dir; DeviceIDSafe li; B "/"; DeviceIDSafe li; B ".";
              Year li; Month li; Day li; B ".log"], None).

Definition latestDeviceLogTmpl (dir : bytes) : Template :=
  fun li => ([name_prefix dir; DeviceIDSafe li; B "/"; DeviceIDSafe li; B ".log"], None).


(** *** The runs of [Open] and [WriteLine], as relations

    The calls a run makes and what it returns, case by case; every run of
    the command trees above is one of these cases ([run_Open],
    [run_WriteLine]). *)

(** The handle that [WriteLine] finds or makes, and the clock read that
    making one costs. *)
Definition handle_for (fm : FileManager) (li : LineInfo) (di : deviceInfo)
           (pre : list event) : Prop :=
  match devices fm !! DeviceIDSafe li with
  | Some found => di = found /\ pre = []
  | None => fd di = None /\ fname di = [] /\ pre = [EvTimeNow]
  end.

(** Closing the file that was open, if one was. *)
Definition closing_events (di : deviceInfo) (tr : list event) : Prop :=
  match fd di with
  | Some f => exists res, tr = [EvKlogInfof (B "Closed %s") [fname di]; EvFileClose f res]
  | None => tr = []
  end.

Inductive link_outcome (lt : option Template) (li : LineInfo) (di : deviceInfo)
  : option error -> list event -> Prop :=
| link_not_configured :
    lt = None -> link_outcome lt li di None []
| link_template_failed t e :
    lt = Some t -> execTmpl t li = inl e ->
    link_outcome lt li di
      (Some (Annotatef e (B "Failed to execute file name template: " ++ e))) []
| link_current t latestName :
    lt = Some t -> execTmpl t li = inr latestName ->
    link_outcome lt li di None
      [EvReadlink latestName (inr (Filepath.Base (fname di)))]
| link_recreated t latestName target r1 r2 :
    lt = Some t -> execTmpl t li = inr latestName ->
    target <> inr (Filepath.Base (fname di)) ->
    link_outcome lt li di None
      [EvReadlink latestName target;
       EvRemove latestName r1;
       EvSymlink (Filepath.Base (fname di)) latestName r2;
       match r2 with
       | Some _ => EvKlogErrorf (B "Failed to symlink %s to %s")
                                [fname di; Filepath.Base (fname di)]
       | None => EvKlogInfof (B "%s -> %s") [latestName; Filepath.Base (fname di)]
       end].

Inductive open_outcome (nt : Template) (lt : option Template) (li : LineInfo)
          (di : deviceInfo) : option error -> deviceInfo -> list event -> Prop :=
| open_template_failed e :
    execTmpl nt li = inl e ->
    open_outcome nt lt li di
      (Some (Annotatef e (B "Failed to execute file name template: " ++ e))) di []
| open_fast_path name :
    execTmpl nt li = inr name -> fname di = name -> fd di <> None ->
    open_outcome nt lt li di None di []
| open_mkdir_failed name closing e :
    execTmpl nt li = inr name -> ~ (fname di = name /\ fd di <> None) ->
    closing_events di closing ->
    open_outcome nt lt li di
      (Some (Annotatef e (B "failed to create log dir")))
      {| fd := None; fname := name; lastUsed := lastUsed di |}
      (closing ++ [EvMkdirAll (Filepath.Dir name) (Some e)])
| open_file_failed name closing e :
    execTmpl nt li = inr name -> ~ (fname di = name /\ fd di <> None) ->
    closing_events di closing ->
    open_outcome nt lt li di (Some e)
      {| fd := None; fname := name; lastUsed := lastUsed di |}
      (closing ++ [EvMkdirAll (Filepath.Dir name) None; EvOpenFile name (inl e)])
| open_opened name closing f err links :
    execTmpl nt li = inr name -> ~ (fname di = name /\ fd di <> None) ->
    closing_events di closing ->
    link_outcome lt li {| fd := Some f; fname := name; lastUsed := lastUsed di |}
                 err links ->
    open_outcome nt lt li di err
      {| fd := Some f; fname := name; lastUsed := lastUsed di |}
      (closing ++ [EvMkdirAll (Filepath.Dir name) None; EvOpenFile name (inr f);
                   EvKlogInfof (B "Opened %s") [name]] ++ links).

Inductive writeline_outcome (fm : FileManager) (li : LineInfo)
  : FileManager -> list event -> Prop :=
| line_dropped di pre e di' tr :
    handle_for fm li di pre ->
    open_outcome (nameTmpl fm) (latestNameTmpl fm) li di (Some e) di' tr ->
    writeline_outcome fm li
      (set_device fm (DeviceIDSafe li) di')
      (pre ++ tr ++ [EvKlogErrorf (B "Failed to open log file: %v") [e]])
| line_written di pre di' tr f writes res now :
    handle_for fm li di pre ->
    open_outcome (nameTmpl fm) (latestNameTmpl fm) li di None di' tr ->
    fd di' = Some f ->
    Forall (is_write_to f) writes ->
    writeline_outcome fm li
      (set_device fm (DeviceIDSafe li) (set_lastUsed di' now))
      (pre ++ tr ++ writes ++ [EvFileWrite f [ "010"%char ] res; EvTimeNow]).

End FileManager.

(** ** [processLine] and the packet loop of [UDPLog] *)

Section Ingestion.
Context {RT : GoRuntime}.

(** The globals [tsFormat] and [stdoutTmpl], set before the first packet. *)
Variable tsFormat : bytes.
Variable stdoutTmpl : option Template.

(** [processLine]: the error returned, the file manager afterwards, and
    the content of [line] afterwards. *)
Definition processLine (ts : Time) (src : UDPAddr) (line : bytes)
           (fm : option FileManager)
  : prog (option ParseError * option FileManager * bytes) :=
  match parseLine tsFormat ts src line with
  | (inl err, line') => Ret (Some err, fm, line')
  | (inr li, line') =>
      match stdoutTmpl with
      | Some t =>
          Execute t (fun data => call (StdoutWrite data)) li ;;;
          call (StdoutWrite [ "010"%char ]) ;;;
          Ret tt
      | None => Ret tt
      end ;;;
      fm' <- match fm with
             | Some m => m' <- WriteLine m li ;; Ret (Some m')
             | None => Ret None
             end ;;
      Ret (None, fm', line')
  end.

Definition crlf : bytes := [ "013"%char; "010"%char ].

(** The loop [for buf.Len() > 10 { ... }] over one packet. Every turn reads
    at least one byte, so [fuel] turns are enough for a buffer of [fuel]
    bytes. *)
Fixpoint packet_loop (fuel : nat) (ts : Time) (src : UDPAddr) (buf : bytes)
         (fm : option FileManager) : prog (option FileManager) :=
  match fuel with
  | O => Ret fm
  | S fuel' =>
      if (10 <? length buf)%nat then
        let '(line, rest) := GoBytes.ReadBytes buf "010" in
        let line := GoBytes.TrimRight line crlf in
        r <- processLine ts src line fm ;;
        let '(err, fm', line') := r in
        match err with
        | Some e =>
            call (KlogErrorf (B "invalid log message %q: %v")
                             [line'; ParseError_text e])
        | None => Ret tt
        end ;;;
        packet_loop fuel' ts src rest fm'
      else Ret fm
  end.

(** The body of the receive loop for one datagram [pkt[:n]] from [src]. *)
Definition handle_packet (src : UDPAddr) (pkt : bytes) (fm : option FileManager)
  : prog (option FileManager) :=
  ts <- call TimeNow ;;
  packet_loop (length pkt) ts src pkt fm.

(** The lines the loop hands to [processLine], in order. *)
Fixpoint packet_lines (fuel : nat) (buf : bytes) : list bytes :=
  match fuel with
  | O => []
  | S fuel' =>
      if (10 <? length buf)%nat then
        let '(line, rest) := GoBytes.ReadBytes buf "010" in
        GoBytes.TrimRight line crlf :: packet_lines fuel' rest
      else []
  end.

(** The newline-terminated records of a packet, each without its newline
    and trimmed of trailing CR and LF. What follows the last newline is
    not newline-terminated and is no record here. *)
Fixpoint records (fuel : nat) (buf : bytes) : list bytes :=
  match fuel with
  | O => []
  | S fuel' =>
      match GoBytes.Cut buf "010" with
      | (before, after, true) =>
          GoBytes.TrimRight before crlf :: records fuel' after
      | (_, _, false) => []
      end
  end.

(** Processing a list of lines one after the other, each with the file
    manager the one before left, and logging the lines that do not
    parse. *)
Fixpoint process_all (ts : Time) (src : UDPAddr) (lines : list bytes)
         (fm : option FileManager) : prog (option FileManager) :=
  match lines with
  | [] => Ret fm
  | line :: rest =>
      r <- processLine ts src line fm ;;
      let '(err, fm', line') := r in
      match err with
      | Some e =>
          call (KlogErrorf (B "invalid log message %q: %v")
                           [line'; ParseError_text e])
      | None => Ret tt
      end ;;;
      process_all ts src rest fm'
  end.

End Ingestion.

(** ** Timestamp formats *)

(** The layouts of Go's [time] package that [ParseTimeStampFormatSpec]
    names. *)
Module TimeLayout.
Definition UnixDate : bytes := B "Mon Jan _2 15:04:05 MST 2006".
Definition RubyDate : bytes := B "Mon Jan 02 15:04:05 -0700 2006".
Definition RFC822 : bytes := B "02 Jan 06 15:04 MST".
Definition RFC822Z : bytes := B "02 Jan 06 15:04 -0700".
Definition RFC850 : bytes := B "Monday, 02-Jan-06 15:04:05 MST".
Definition RFC1123 : bytes := B "Mon, 02 Jan 2006 15:04:05 MST".
Definition RFC1123Z : bytes := B "Mon, 02 Jan 2006 15:04:05 -0700".
Definition RFC3339 : bytes := B "2006-01-02T15:04:05Z07:00".
Definition RFC3339Nano : bytes := B "2006-01-02T15:04:05.999999999Z07:00".
Definition Kitchen : bytes := B "3:04PM".
Definition Stamp : bytes := B "Jan _2 15:04:05".
Definition StampMilli : bytes := B "Jan _2 15:04:05.000".
Definition StampMicro : bytes := B "Jan _2 15:04:05.000000".
Definition StampNano : bytes := B "Jan _2 15:04:05.000000000".
End TimeLayout.

(** The names the switch of [ParseTimeStampFormatSpec] knows, in its order,
    each with what it returns. *)
Definition layout_names : list (bytes * bytes) :=
  [ ([], []);
    (B "none", []);
    (B "UnixDate", TimeLayout.UnixDate);
    (B "RubyDate", TimeLayout.RubyDate);
    (B "RFC822", TimeLayout.RFC822);
    (B "RFC822Z", TimeLayout.RFC822Z);
    (B "RFC850", TimeLayout.RFC850);
    (B "RFC1123", TimeLayout.RFC1123);
    (B "RFC1123Z", TimeLayout.RFC1123Z);
    (B "RFC3339", TimeLayout.RFC3339);
    (B "RFC3339Nano", TimeLayout.RFC3339Nano);
    (B "Kitchen", TimeLayout.Kitchen);
    (B "Stamp", TimeLayout.Stamp);
    (B "StampMilli", TimeLayout.StampMilli);
    (B "StampMicro", TimeLayout.StampMicro);
    (B "StampNano", TimeLayout.StampNano) ].

(** The switch: the first case that equals the tag. *)
Fixpoint switch_on (tag : bytes) (cases : list (bytes * bytes)) : option bytes :=
  match cases with
  | [] => None
  | (name, result) :: rest =>
      if bool_decide (tag = name) then Some result else switch_on tag rest
  end.

(** [ParseTimeStampFormatSpec]: a known name gives its layout, anything else
    is taken to be a layout itself. *)
Definition ParseTimeStampFormatSpec (tsfSpec : bytes) : bytes :=
  match switch_on tsfSpec layout_names with
  | Some layout => layout
  | None => tsfSpec
  end.

(** The value of the global [tsFormat] after the start-up code of [UDPLog]
    (lines 225 to 227): it is assigned only when the flag is not empty, and
    is the empty string before. *)
Definition startup_tsFormat (flagTimestamp : bytes) : bytes :=
  if (0 <? length flagTimestamp)%nat then ParseTimeStampFormatSpec flagTimestamp
  else [].

(** ** A sample platform and a small file system, to run the model on *)

Module Sample.

(** A calendar date stands for a time. *)
Record date := { year : Z; month : Z; day : Z }.

Definition pad (width : nat) (n : Z) : bytes :=
  let d := Strconv.Sprintf_d n in
  repeat "0"%char (width - length d) ++ d.

(** [Format] for the one layout the samples use; another layout is
    returned as it is. *)
Definition Format (d : date) (layout : bytes) : bytes :=
  if bool_decide (layout = B "20060102")
  then pad 4 (year d) ++ pad 2 (month d) ++ pad 2 (day d)
  else layout.

Fixpoint digits_value (s : bytes) (acc : Z) : option Z :=
  match s with
  | [] => Some acc
  | c :: s' => if Strconv.is_digit c
               then digits_value s' (acc * 10 + Strconv.digit_val c)
               else None
  end.

(** [strconv.ParseFloat(s, 64)] on the literals [[+-]digits[.digits]] whose
    digits make a number below 2^52 with at most 22 of them after the
    point. For these strconv takes its exact path: the digits as a
    float64, divided once by the power of ten. The sample answers [None]
    on every other input, which says nothing about strconv there. *)
Definition ParseFloat_plain (s : bytes) : option Float64.float64 :=
  let '(neg, body) := match s with
                      | "-"%char :: r => (true, r)
                      | "+"%char :: r => (false, r)
                      | _ => (false, s)
                      end in
  let '(int_part, frac_part, _) := GoBytes.Cut body "." in
  match digits_value (int_part ++ frac_part) 0 with
  | None => None
  | Some m =>
      if bool_decide (int_part ++ frac_part = []) then None
      else if (m <? 2 ^ 52) && (length frac_part <=? 22)%nat then
        let f := Float64.div (Float64.of_Z m)
                             (Float64.of_Z (10 ^ Z.of_nat (length frac_part))) in
        Some (if neg then SFopp f else f)
      else None
  end.

(** A saturating conversion, as the arm64 instruction does it. *)
Definition saturate (f : Float64.float64) : Z :=
  match f with
  | S754_infinity false | S754_finite false _ _ => 2 ^ 64 - 1
  | _ => 0
  end.

#[export] Instance runtime : GoRuntime := {|
  Time := date;
  UDPAddr := bytes;
  time_Format := Format;
  ParseFloat := ParseFloat_plain;
  uint64_out_of_range := saturate
|}.

(** A file system with symlinks, file contents and open descriptors, and
    two ways to fail: [readonly] refuses to create anything, [full] refuses
    to write. *)
Record fs := {
  links : gmap bytes bytes;
  contents : gmap bytes bytes;
  fds : gmap nat bytes;
  readonly : bool;
  full : bool;
  clock : date
}.

Definition with_links (w : fs) (l : gmap bytes bytes) : fs :=
  {| links := l; contents := contents w; fds := fds w;
     readonly := readonly w; full := full w; clock := clock w |}.
Definition with_contents (w : fs) (c : gmap bytes bytes) : fs :=
  {| links := links w; contents := c; fds := fds w;
     readonly := readonly w; full := full w; clock := clock w |}.
Definition with_fds (w : fs) (d : gmap nat bytes) : fs :=
  {| links := links w; contents := contents w; fds := d;
     readonly := readonly w; full := full w; clock := clock w |}.

Definition fresh_fd (w : fs) : nat := 3 + size (fds w).

Definition os : handler fs := fun X (e : sys X) (w : fs) =>
  match e in sys X return X * fs with
  | MkdirAll _ =>
      (if readonly w then Some (B "read-only file system") else None, w)
  | OpenFile name =>
      if readonly w then (inl (B "read-only file system"), w)
      else
        let f := fresh_fd w in
        let c := match contents w !! name with
                 | Some _ => contents w
                 | None => <[name := []]> (contents w)
                 end in
        (inr f, with_fds (with_contents w c) (<[f := name]> (fds w)))
  | FileClose f => (None, with_fds w (delete f (fds w)))
  | FileWrite f data =>
      match fds w !! f with
      | None => (Some (B "bad file descriptor"), w)
      | Some name =>
          if full w then (Some (B "no space left on device"), w)
          else (None, with_contents w
                        (<[name := default [] (contents w !! name) ++ data]> (contents w)))
      end
  | Readlink name =>
      (match links w !! name with
       | Some target => inr target
       | None => inl (B "no such file or directory")
       end, w)
  | Remove name =>
      (None, with_links (with_contents w (delete name (contents w)))
                        (delete name (links w)))
  | Symlink oldname newname =>
      if readonly w then (Some (B "read-only file system"), w)
      else match links w !! newname with
           | Some _ => (Some (B "file exists"), w)
           | None => (None, with_links w (<[newname := oldname]> (links w)))
           end
  | StdoutWrite _ => (None, w)
  | TimeNow => (clock w, w)
  | KlogInfof _ _ => (tt, w)
  | KlogErrorf _ _ => (tt, w)
  end.

Definition empty_fs (today : date) : fs :=
  {| links := ∅; contents := ∅; fds := ∅;
     readonly := false; full := false; clock := today |}.

(** The default [--file-format] with no timestamp format configured:
    [{{.TimestampStr}} {{.Src}} {{.LevelChar}} {{.Msg}}]. *)
Definition fileFormat : Template :=
  fun li => ([TimestampStr li; B " "; Src li; B " "; LevelChar li; B " "; Msg li], None).

(** A line feed. *)
Definition nl : bytes := [ "010"%char ].

(** The sender of the sample packets. *)
Definition src : bytes := B "10.0.0.7:1993".

Definition jan2 : date := {| year := 2022; month := 1; day := 2 |}.
Definition jan3 : date := {| year := 2022; month := 1; day := 3 |}.

(** The event parsed from [dev1 42 12.5 3 2|hello world] received on the
    day [d]. *)
Definition hello (d : date) : LineInfo :=
  {| Src := src; Timestamp := d; DeviceID := B "dev1"; SeqNum := 42;
     UptimeMs := 12500; FD := 3; Level := 2; Msg := B "hello world";
     TimestampStr := []; DeviceIDSafe := B "dev1";
     Year := take 4 (Format d (B "20060102"));
     Month := take 2 (drop 4 (Format d (B "20060102")));
     Day := take 2 (drop 6 (Format d (B "20060102")));
     LevelChar := B "I" |}.

(** The file manager [NewFileManager "logs"] makes, before any line. *)
Definition manager : FileManager :=
  {| nameTmpl := deviceLogTmpl (B "logs");
     latestNameTmpl := Some (latestDeviceLogTmpl (B "logs"));
     recordTmpl := fileFormat;
     devices := ∅ |}.

Definition log_name (d : date) : bytes :=
  B "logs/dev1/dev1." ++ Format d (B "20060102") ++ B ".log".

(** The manager with the file of [dev1] for the day [d] open as
    descriptor 3. *)
Definition manager_open (d : date) : FileManager :=
  set_device manager (B "dev1")
             {| fd := Some 3%nat; fname := log_name d; lastUsed := d |}.

(** A file system in which that file is open and no symlink exists. *)
Definition fs_open (d : date) : fs :=
  {| links := ∅; contents := {[ log_name d := [] ]};
     fds := {[ 3%nat := log_name d ]};
     readonly := false; full := false; clock := d |}.

(** The event parsed from [.. 1 1.0 1 1|x]. *)
Definition dotdot : LineInfo :=
  {| Src := src; Timestamp := jan2; DeviceID := B ".."; SeqNum := 1;
     UptimeMs := 1000; FD := 1; Level := 1; Msg := B "x";
     TimestampStr := []; DeviceIDSafe := B "..";
     Year := B "2022"; Month := B "01"; Day := B "02";
     LevelChar := B "W" |}.

(** A packet of two records, the second with a malformed header. *)
Definition packet_two : bytes :=
  B "dev1 42 12.5 3 2|hello world" ++ nl ++ B "dev1 oops|hello" ++ nl.

(** A packet of two records, the second three bytes long. *)
Definition packet_short_tail : bytes :=
  B "dev1 42 12.5 3 2|hello world" ++ nl ++ B "xyz" ++ nl.

Definition make_readonly (w : fs) : fs :=
  {| links := links w; contents := contents w; fds := fds w;
     readonly := true; full := full w; clock := clock w |}.

Definition make_full (w : fs) : fs :=
  {| links := links w; contents := contents w; fds := fds w;
     readonly := readonly w; full := true; clock := clock w |}.

End Sample.

(** * Properties *)

(** ** Byte strings *)

Section BytesFacts.
Import GoBytes.

Lemma eqb_false_ne (c sep : ascii) : Ascii.eqb c sep = false -> c <> sep.
Proof. intros E ->. rewrite Ascii.eqb_refl in E. discriminate. Qed.

Lemma Cut_app (before after : bytes) (sep : ascii) :
  ~ In sep before -> Cut (before ++ sep :: after) sep = (before, after, true).
Proof.
  induction before as [|c b IH]; simpl; intros Hn.
  - now rewrite Ascii.eqb_refl.
  - destruct (Ascii.eqb c sep) eqn:E.
    + apply Ascii.eqb_eq in E. tauto.
    + rewrite IH; [reflexivity | tauto].
Qed.

Lemma Cut_found (s before after : bytes) (sep : ascii) :
  Cut s sep = (before, after, true) ->
  s = before ++ sep :: after /\ ~ In sep before.
Proof.
  revert before after. induction s as [|c s IH]; simpl; intros b a H.
  - discriminate.
  - destruct (Ascii.eqb c sep) eqn:E.
    + apply Ascii.eqb_eq in E. inversion H; subst. simpl. tauto.
    + destruct (Cut s sep) as [[b' a'] f']. inversion H; subst.
      destruct (IH b' a eq_refl) as [-> Hn]. split; [reflexivity|].
      simpl. intros [->|Hin]; [|tauto]. now rewrite Ascii.eqb_refl in E.
Qed.


Lemma Split_no_sep (p : bytes) (sep : ascii) :
  ~ In sep p -> Split p sep = [p].
Proof.
  induction p as [|c p IH]; simpl; intros Hn; [reflexivity|].
  destruct (Ascii.eqb c sep) eqn:E.
  - apply Ascii.eqb_eq in E. tauto.
  - rewrite IH; tauto.
Qed.

Lemma Split_app (p s : bytes) (sep : ascii) :
  ~ In sep p -> Split (p ++ sep :: s) sep = p :: Split s sep.
Proof.
  induction p as [|c p IH]; simpl; intros Hn.
  - now rewrite Ascii.eqb_refl.
  - destruct (Ascii.eqb c sep) eqn:E.
    + apply Ascii.eqb_eq in E. tauto.
    + rewrite IH; tauto.
Qed.

(** The first part is a prefix of the input. *)
Lemma Split_head (s : bytes) (sep : ascii) :
  take (length (nth 0 (Split s sep) [])) s = nth 0 (Split s sep) [].
Proof.
  induction s as [|c s IH]; simpl; [reflexivity|].
  destruct (Ascii.eqb c sep); [reflexivity|].
  destruct (Split s sep) as [|p ps] eqn:E; [reflexivity|].
  simpl in *. now rewrite IH.
Qed.

(** The parts and the separators between them make up the input. *)
Lemma Split_total_length (s : bytes) (sep : ascii) :
  (list_sum (map (fun p => S (length p)) (Split s sep)) = S (length s))%nat.
Proof.
  induction s as [|c s IH]; simpl; [reflexivity|].
  destruct (Ascii.eqb c sep); simpl; [now rewrite IH|].
  destruct (Split s sep) as [|p ps]; simpl in *; lia.
Qed.

Lemma ReadBytes_app (buf : bytes) (delim : ascii) :
  fst (ReadBytes buf delim) ++ snd (ReadBytes buf delim) = buf.
Proof.
  induction buf as [|c buf IH]; simpl; [reflexivity|].
  destruct (Ascii.eqb c delim); simpl; [reflexivity|].
  destruct (ReadBytes buf delim) as [l r]; simpl in *. now rewrite IH.
Qed.

Lemma ReadBytes_progress (buf : bytes) (delim : ascii) :
  buf <> [] -> (length (snd (ReadBytes buf delim)) < length buf)%nat.
Proof.
  induction buf as [|c buf IH]; simpl; intros Hne; [congruence|].
  destruct (Ascii.eqb c delim); simpl; [lia|].
  destruct buf as [|c' buf']; [simpl; lia|].
  specialize (IH ltac:(discriminate)).
  destruct (ReadBytes (c' :: buf') delim) as [l r]; simpl in *. lia.
Qed.

Lemma TrimRight_length (s cutset : bytes) :
  (length (TrimRight s cutset) <= length s)%nat.
Proof.
  induction s as [|c s IH]; simpl; [lia|].
  destruct (TrimRight s cutset); simpl in *.
  - destruct (in_cutset cutset c); simpl; lia.
  - lia.
Qed.

End BytesFacts.

(** ** Sanitizing the device id *)

Section Sanitize.
Context {RT : GoRuntime}.

Lemma sanitize_byte_safe (c : ascii) : safeChars (sanitize_byte c) = true.
Proof. unfold sanitize_byte. destruct (safeChars c) eqn:E; [exact E | reflexivity]. Qed.

Lemma sanitize_byte_idem (c : ascii) :
  sanitize_byte (sanitize_byte c) = sanitize_byte c.
Proof. unfold sanitize_byte at 1. now rewrite sanitize_byte_safe. Qed.

Lemma sanitize_at_middle (done todo : bytes) (c : ascii) :
  sanitize_at (done ++ c :: todo) (length done) = done ++ sanitize_byte c :: todo.
Proof.
  unfold sanitize_at, sanitize_byte.
  rewrite list_lookup_middle by reflexivity.
  destruct (safeChars c); [reflexivity|].
  now rewrite insert_app_r_alt, Nat.sub_diag by lia.
Qed.

Lemma sanitize_loop (done p rest : bytes) :
  foldl sanitize_at (done ++ p ++ rest) (seq (length done) (length p))
  = done ++ map sanitize_byte p ++ rest.
Proof.
  revert done. induction p as [|c p IH]; intros done; simpl; [reflexivity|].
  rewrite sanitize_at_middle.
  replace (done ++ sanitize_byte c :: p ++ rest)
    with ((done ++ [sanitize_byte c]) ++ p ++ rest) by now rewrite <- app_assoc.
  replace (S (length done)) with (length (done ++ [sanitize_byte c]))
    by (rewrite length_app; simpl; lia).
  rewrite IH. now rewrite <- app_assoc.
Qed.

(** The loop over a prefix [p] of the buffer maps [sanitize_byte] over it
    and leaves the rest alone. *)
Lemma sanitize_in_place_app (p rest : bytes) :
  sanitize_in_place (length p) (p ++ rest) = map sanitize_byte p ++ rest.
Proof. exact (sanitize_loop [] p rest). Qed.

Lemma sanitize_in_place_take (n : nat) (line : bytes) :
  (n <= length line)%nat ->
  sanitize_in_place n line = map sanitize_byte (take n line) ++ drop n line.
Proof.
  intros Hn. rewrite <- (take_drop n line) at 1.
  replace n with (length (take n line)) at 1 by (rewrite length_take; lia).
  apply sanitize_in_place_app.
Qed.

(** C7: the sanitizing loop of [parseLine], run over a whole byte string,
    changes nothing when it is run a second time. *)
Theorem sanitize_idempotent (s : bytes) :
  sanitize_in_place (length s) (sanitize_in_place (length s) s)
  = sanitize_in_place (length s) s.
Proof.
  pose proof (sanitize_in_place_app s []) as H1. rewrite !app_nil_r in H1.
  rewrite H1.
  pose proof (sanitize_in_place_app (map sanitize_byte s) []) as H2.
  rewrite !app_nil_r, length_map in H2. rewrite H2.
  rewrite map_map. apply map_ext. intros c. apply sanitize_byte_idem.
Qed.

Lemma safe_not_separator (c : ascii) :
  safeChars c = true -> c <> "/"%char /\ c <> "\"%char /\ c <> "000"%char.
Proof.
  intros H. repeat split; intros ->; vm_compute in H; discriminate.
Qed.

(** No byte of a sanitized id is a path separator or the NUL byte. *)
Lemma sanitized_no_separator (s : bytes) (c : ascii) :
  In c (map sanitize_byte s) -> c <> "/"%char /\ c <> "\"%char /\ c <> "000"%char.
Proof.
  intros Hin. apply in_map_iff in Hin as [c0 [<- _]].
  apply safe_not_separator, sanitize_byte_safe.
Qed.

End Sanitize.

(** ** Decimal fields *)

Section StrconvFacts.
Import Strconv.

Lemma digit_val_range (c : ascii) : is_digit c = true -> 0 <= digit_val c <= 9.
Proof.
  destruct c as [[] [] [] [] [] [] [] []]; vm_compute; intros H;
    solve [discriminate H | split; discriminate].
Qed.

Lemma digit_not_separator (c : ascii) :
  is_digit c = true -> c <> " "%char /\ c <> "|"%char.
Proof. intros H; split; intros ->; vm_compute in H; discriminate. Qed.

Lemma all_digits_no_separator (s : bytes) :
  all_digits s -> ~ In " "%char s /\ ~ In "|"%char s.
Proof.
  intros H. split; intros Hin;
    pose proof (proj1 (List.Forall_forall _ _) H _ Hin) as Hc;
    apply digit_not_separator in Hc; tauto.
Qed.

Lemma decimal_loop_ge (s : bytes) (n : Z) :
  all_digits s -> 0 <= n ->
  n <= fold_left (fun acc c => acc * 10 + digit_val c) s n.
Proof.
  intros Hs. revert n. induction Hs as [|c s Hc Hs IH]; intros n Hn; simpl; [lia|].
  apply digit_val_range in Hc.
  etransitivity; [|apply IH]; lia.
Qed.

Lemma ParseUint_loop_digits (s : bytes) (bitSize n : Z) :
  bitSize = 32 \/ bitSize = 64 ->
  all_digits s -> 0 <= n ->
  fold_left (fun acc c => acc * 10 + digit_val c) s n < 2 ^ bitSize ->
  ParseUint_loop s bitSize n = Some (fold_left (fun acc c => acc * 10 + digit_val c) s n).
Proof.
  intros Hb Hs. revert n. induction Hs as [|c s Hc Hs IH]; intros n Hn Hlt; simpl.
  - reflexivity.
  - rewrite Hc. simpl negb. cbv iota.
    pose proof (digit_val_range c Hc) as Hd.
    pose proof (decimal_loop_ge s (n * 10 + digit_val c) Hs ltac:(lia)) as Hge.
    simpl in Hlt.
    assert (Hmax : 2 ^ bitSize <= 2 ^ 64) by (destruct Hb; subst; vm_compute; discriminate).
    change (2 ^ 64) with 18446744073709551616 in *.
    change ((18446744073709551616 - 1) / 10 + 1) with 1844674407370955162.
    destruct (Z.leb_spec 1844674407370955162 n); [lia|].
    rewrite (Z.mod_small (n * 10)) by lia.
    rewrite (Z.mod_small (n * 10 + digit_val c)) by lia.
    destruct (Z.ltb_spec (n * 10 + digit_val c) (n * 10)); [lia|].
    destruct (Z.ltb_spec (2 ^ bitSize - 1) (n * 10 + digit_val c)); [lia|].
    simpl orb. cbv iota. apply IH; lia.
Qed.

(** [ParseUint] accepts every non-empty string of digits whose value fits
    and returns that value. *)
Lemma ParseUint_digits (s : bytes) (bitSize : Z) :
  bitSize = 32 \/ bitSize = 64 ->
  s <> [] -> all_digits s -> decimal_value s < 2 ^ bitSize ->
  ParseUint s bitSize = Some (decimal_value s).
Proof.
  intros Hb Hne Hs Hlt. unfold ParseUint.
  destruct s as [|c s]; [congruence|].
  apply ParseUint_loop_digits; auto. lia.
Qed.

End StrconvFacts.

(** ** The record parser *)

Section ParserFacts.
Context {RT : GoRuntime}.
Variable tsFormat : bytes.
Import GoBytes Strconv.

Lemma ParseUint_loop_range (s : bytes) (bitSize n r : Z) :
  0 <= n <= 2 ^ bitSize - 1 ->
  ParseUint_loop s bitSize n = Some r -> 0 <= r <= 2 ^ bitSize - 1.
Proof.
  revert n. induction s as [|c s IH]; simpl; intros n Hn H.
  - inversion H; subst; lia.
  - destruct (negb (is_digit c)); [discriminate|].
    destruct (_ <=? n); [discriminate|].
    set (n10 := (n * 10) mod 2 ^ 64) in *.
    set (n1 := (n10 + digit_val c) mod 2 ^ 64) in *.
    destruct (n1 <? n10) eqn:E1; [discriminate|].
    destruct (2 ^ bitSize - 1 <? n1) eqn:E2; [discriminate|].
    simpl in H. apply (IH n1); [|exact H].
    apply Z.ltb_ge in E2. split; [|lia].
    subst n1. apply Z.mod_pos_bound. reflexivity.
Qed.

Lemma ParseUint_range (s : bytes) (bitSize r : Z) :
  0 < bitSize -> ParseUint s bitSize = Some r -> 0 <= r < 2 ^ bitSize.
Proof.
  intros Hb H. unfold ParseUint in H. destruct s as [|c s]; [discriminate|].
  apply ParseUint_loop_range in H; [lia|].
  assert (0 < 2 ^ bitSize) by (apply Z.pow_pos_nonneg; lia). lia.
Qed.

(** A failed parse leaves the buffer as it was. *)
Lemma parseLine_error_buffer ts src line e line' :
  parseLine tsFormat ts src line = (inl e, line') -> line' = line.
Proof.
  unfold parseLine. destruct (Cut line "|") as [[info msg] found].
  repeat match goal with
         | |- context [if ?b then _ else _] => destruct b
         | |- context [match ?o with Some _ => _ | None => _ end] => destruct o
         end; intros H; inversion H; reflexivity.
Qed.

(** What a successful parse tells about the line. *)
Lemma parseLine_ok_inv ts src line li line' :
  parseLine tsFormat ts src line = (inr li, line') ->
  exists info p0 p1 p2 p3 p4 v,
    Cut line "|" = (info, Msg li, true) /\
    Split info " " = [p0; p1; p2; p3; p4] /\
    (0 < length p0 <= 50)%nat /\
    DeviceID li = p0 /\
    ParseUint p1 64 = Some (SeqNum li) /\
    ParseFloat p2 = Some v /\
    UptimeMs li = uint64_of_float (Float64.mul v (Float64.of_Z 1000)) /\
    ParseUint p3 32 = Some (FD li) /\
    ParseUint p4 32 = Some (Level li) /\
    LevelChar li = levelChar (Level li) /\
    line' = sanitize_in_place (length p0) line /\
    DeviceIDSafe li = take (length p0) line'.
Proof.
  unfold parseLine. destruct (Cut line "|") as [[info msg] found].
  destruct found; simpl; [|discriminate].
  destruct (Split info " ") as [|p0 [|p1 [|p2 [|p3 [|p4 [|p5 ps]]]]]] eqn:Es;
    simpl; try discriminate.
  destruct ((0 <? length p0)%nat) eqn:E0; simpl; [|discriminate].
  destruct ((length p0 <=? 50)%nat) eqn:E50; simpl; [|discriminate].
  destruct (ParseUint p1 64) as [seqn|] eqn:E1; [|discriminate].
  destruct (ParseFloat p2) as [v|] eqn:E2; [|discriminate].
  destruct (ParseUint p3 32) as [fdn|] eqn:E3; [|discriminate].
  destruct (ParseUint p4 32) as [lvl|] eqn:E4; [|discriminate].
  intros H. inversion H; subst; clear H. simpl.
  apply Nat.ltb_lt in E0. apply Nat.leb_le in E50.
  exists info, p0, p1, p2, p3, p4, v. repeat split; auto.
Qed.

(** How the header of a well-formed line comes apart. *)
Lemma record_line_Cut id seq up fd lvl msg :
  no_sep id -> no_sep seq -> no_sep up -> no_sep fd -> no_sep lvl ->
  Cut (record_line id seq up fd lvl msg) "|"
  = (id ++ " "%char :: seq ++ " "%char :: up ++ " "%char :: fd ++ " "%char :: lvl,
     msg, true).
Proof.
  intros [_ Hi] [_ Hs] [_ Hu] [_ Hf] [_ Hl]. unfold record_line.
  set (info := id ++ _ :: seq ++ _ :: up ++ _ :: fd ++ _ :: lvl).
  replace (id ++ " "%char :: seq ++ " "%char :: up ++ " "%char :: fd ++ " "%char
              :: lvl ++ "|"%char :: msg)
    with (info ++ "|"%char :: msg).
  - apply Cut_app. subst info.
    rewrite !in_app_iff; simpl; rewrite !in_app_iff; simpl;
      rewrite !in_app_iff; simpl; rewrite !in_app_iff; simpl.
    intuition discriminate.
  - subst info. repeat (rewrite <- ?app_assoc; simpl). reflexivity.
Qed.

Lemma record_line_Split id seq up fd lvl :
  no_sep id -> no_sep seq -> no_sep up -> no_sep fd -> no_sep lvl ->
  Split (id ++ " "%char :: seq ++ " "%char :: up ++ " "%char :: fd ++ " "%char :: lvl) " "
  = [id; seq; up; fd; lvl].
Proof.
  intros [Hi _] [Hs _] [Hu _] [Hf _] [Hl _].
  rewrite !Split_app by assumption. now rewrite Split_no_sep.
Qed.

End ParserFacts.

Section ParserClaims.
Context {RT : GoRuntime}.
Variable tsFormat : bytes.
Import GoBytes Strconv.

(** [parseLine] on a line whose five header fields hold no separator: the
    checks it makes, in their order, and the event it builds. *)
Lemma parseLine_record ts src id seq up fd lvl msg :
  no_sep id -> no_sep seq -> no_sep up -> no_sep fd -> no_sep lvl ->
  parseLine tsFormat ts src (record_line id seq up fd lvl msg) =
  let line := record_line id seq up fd lvl msg in
  if negb ((0 <? length id)%nat && (length id <=? 50)%nat)
  then (inl InvalidDeviceId, line) else
  match ParseUint seq 64 with
  | None => (inl InvalidSequenceNumber, line)
  | Some seqNum =>
  match ParseFloat up with
  | None => (inl InvalidUptime, line)
  | Some v =>
  match ParseUint fd 32 with
  | None => (inl InvalidFileDescriptor, line)
  | Some fdn =>
  match ParseUint lvl 32 with
  | None => (inl InvalidLevel, line)
  | Some level =>
    (inr {| Src := src; Timestamp := ts; DeviceID := id; SeqNum := seqNum;
            UptimeMs := uint64_of_float (Float64.mul v (Float64.of_Z 1000));
            FD := fdn; Level := level; Msg := msg;
            TimestampStr := FormatTimestamp tsFormat ts;
            DeviceIDSafe := map sanitize_byte id;
            Year := take 4 (time_Format ts (B "20060102"));
            Month := take 2 (drop 4 (time_Format ts (B "20060102")));
            Day := take 2 (drop 6 (time_Format ts (B "20060102")));
            LevelChar := levelChar level |},
     map sanitize_byte id ++ drop (length id) line)
  end end end end.
Proof.
  intros Hi Hs Hu Hf Hl. unfold parseLine.
  rewrite record_line_Cut by assumption.
  rewrite record_line_Split by assumption.
  cbn [length Nat.eqb negb nth].
  destruct (negb _); [reflexivity|].
  destruct (ParseUint seq 64); [|reflexivity].
  destruct (ParseFloat up); [|reflexivity].
  destruct (ParseUint fd 32); [|reflexivity].
  destruct (ParseUint lvl 32); [|reflexivity].
  assert (Hsan : sanitize_in_place (length id) (record_line id seq up fd lvl msg)
                 = map sanitize_byte id ++ drop (length id) (record_line id seq up fd lvl msg)).
  { unfold record_line. rewrite sanitize_in_place_app.
    now rewrite drop_app_length. }
  cbv zeta. rewrite Hsan.
  rewrite take_app_length' by now rewrite length_map.
  reflexivity.
Qed.

(** C4 (amended): a valid record parses and every field comes back as it
    was sent, the device id also in its sanitized form, and [UptimeMs] is
    the float64 product of the parsed uptime and 1000 cut off toward zero
    (not rounded). *)
Theorem valid_record_round_trip ts src id seq up fd lvl msg v ms :
  (1 <= length id <= 50)%nat -> no_sep id ->
  seq <> [] -> all_digits seq -> decimal_value seq < 2 ^ 64 ->
  no_sep up -> ParseFloat up = Some v ->
  Float64.trunc (Float64.mul v (Float64.of_Z 1000)) = Some ms ->
  0 <= ms < 2 ^ 64 ->
  fd <> [] -> all_digits fd -> decimal_value fd < 2 ^ 32 ->
  lvl <> [] -> all_digits lvl -> decimal_value lvl < 2 ^ 32 ->
  parseLine tsFormat ts src (record_line id seq up fd lvl msg) =
    (inr {| Src := src; Timestamp := ts; DeviceID := id;
            SeqNum := decimal_value seq;
            UptimeMs := ms;
            FD := decimal_value fd; Level := decimal_value lvl; Msg := msg;
            TimestampStr := FormatTimestamp tsFormat ts;
            DeviceIDSafe := map sanitize_byte id;
            Year := take 4 (time_Format ts (B "20060102"));
            Month := take 2 (drop 4 (time_Format ts (B "20060102")));
            Day := take 2 (drop 6 (time_Format ts (B "20060102")));
            LevelChar := levelChar (decimal_value lvl) |},
     map sanitize_byte id ++ drop (length id) (record_line id seq up fd lvl msg)).
Proof.
  intros Hlen Hid Hs0 Hs Hsv Hup Hv Hms Hmsr Hf0 Hf Hfv Hl0 Hl Hlv.
  rewrite parseLine_record; auto using all_digits_no_separator.
  2-4: split; apply all_digits_no_separator; assumption.
  cbv zeta.
  replace ((0 <? length id)%nat && (length id <=? 50)%nat) with true.
  2:{ symmetry. apply andb_true_iff. split; [apply Nat.ltb_lt | apply Nat.leb_le]; lia. }
  cbn [negb].
  rewrite ParseUint_digits by auto.
  rewrite Hv.
  rewrite !ParseUint_digits by auto.
  unfold uint64_of_float. rewrite Hms.
  replace ((0 <=? ms) && (ms <? 2 ^ 64)) with true.
  2:{ symmetry. apply andb_true_iff. split; [apply Z.leb_le | apply Z.ltb_lt]; lia. }
  reflexivity.
Qed.

(** C5 (amended): on a line whose device id and sequence number are valid,
    [parseLine] fails with [InvalidUptime] exactly when
    [strconv.ParseFloat] rejects the uptime field; the sign of the value
    is not looked at. *)
Theorem uptime_rejected_iff ts src id seq up fd lvl msg :
  (1 <= length id <= 50)%nat -> no_sep id ->
  seq <> [] -> all_digits seq -> decimal_value seq < 2 ^ 64 ->
  no_sep up -> no_sep fd -> no_sep lvl ->
  fst (parseLine tsFormat ts src (record_line id seq up fd lvl msg)) = inl InvalidUptime
  <-> ParseFloat up = None.
Proof.
  intros Hlen Hid Hs0 Hs Hsv Hup Hfd Hlvl.
  rewrite parseLine_record; auto.
  2: split; apply all_digits_no_separator; assumption.
  cbv zeta.
  replace ((0 <? length id)%nat && (length id <=? 50)%nat) with true.
  2:{ symmetry. apply andb_true_iff. split; [apply Nat.ltb_lt | apply Nat.leb_le]; lia. }
  cbn [negb].
  rewrite ParseUint_digits by auto.
  destruct (ParseFloat up) as [v|]; [|simpl; tauto].
  destruct (ParseUint fd 32); [destruct (ParseUint lvl 32)|]; simpl;
    split; intros H; discriminate H.
Qed.

Lemma levelChar_other (level : Z) :
  4 < level ->
  levelChar level = [ascii_of_N (48 + Z.to_N (level mod 10))].
Proof.
  intros H. assert (Hm : 0 <= level mod 10 < 10) by (apply Z.mod_pos_bound; lia).
  assert (E : levelChar level = Sprintf_d (level mod 10)).
  { destruct level as [|p|p]; try lia.
    do 3 (destruct p as [p|p|]; try lia; try reflexivity). }
  rewrite E.
  destruct (level mod 10) as [|p|p]; try lia; [reflexivity|].
  do 4 (destruct p as [p|p|]; try lia; try reflexivity).
Qed.

(** C6: the level character of a parsed event depends on its level only:
    E, W, I, D, V for 0 to 4, and for any other level the one decimal
    digit of the level modulo 10; it is never empty. *)
Theorem level_char_mapping ts src line li line' :
  parseLine tsFormat ts src line = (inr li, line') ->
  LevelChar li = levelChar (Level li) /\
  (Level li = 0 -> LevelChar li = B "E") /\
  (Level li = 1 -> LevelChar li = B "W") /\
  (Level li = 2 -> LevelChar li = B "I") /\
  (Level li = 3 -> LevelChar li = B "D") /\
  (Level li = 4 -> LevelChar li = B "V") /\
  (~ (0 <= Level li <= 4) ->
     LevelChar li = Sprintf_d (Level li mod 10) /\
     LevelChar li = [ascii_of_N (48 + Z.to_N (Level li mod 10))]) /\
  (Level li = 17 -> LevelChar li = B "7") /\
  LevelChar li <> [].
Proof.
  intros H. apply parseLine_ok_inv in H
    as (info & p0 & p1 & p2 & p3 & p4 & v & _ & _ & _ & _ & _ & _ & _ & _ & Hl & Hc & _).
  apply ParseUint_range in Hl; [|lia].
  repeat split; try (intros E; rewrite Hc, E; reflexivity); try exact Hc.
  - rewrite Hc. destruct (Z_le_gt_dec (Level li) 4) as [Hle|Hgt]; [lia|].
    rewrite levelChar_other by lia.
    assert (Hm : 0 <= Level li mod 10 < 10) by (apply Z.mod_pos_bound; lia).
    destruct (Level li mod 10) as [|p|p]; try lia; [reflexivity|].
    do 4 (destruct p as [p|p|]; try lia; try reflexivity).
  - rewrite Hc. apply levelChar_other. lia.
  - rewrite Hc. destruct (Z_le_gt_dec (Level li) 4) as [Hle|Hgt].
    + assert (Level li = 0 \/ Level li = 1 \/ Level li = 2 \/ Level li = 3 \/ Level li = 4)
        as [E|[E|[E|[E|E]]]] by lia; rewrite E; discriminate.
    + rewrite levelChar_other by lia. discriminate.
Qed.

(** C8 (amended): [parseLine] does no input or output and its only effect
    on the line buffer is that, when it succeeds, the bytes of the device
    id outside the allow-set are overwritten with an underscore; the rest
    of the buffer, and the whole buffer when it fails, stay as they were. *)
Theorem parse_buffer_effect ts src line r line' :
  parseLine tsFormat ts src line = (r, line') ->
  match r with
  | inl _ => line' = line
  | inr li =>
      line = DeviceID li ++ drop (length (DeviceID li)) line /\
      line' = map sanitize_byte (DeviceID li) ++ drop (length (DeviceID li)) line /\
      DeviceIDSafe li = map sanitize_byte (DeviceID li)
  end.
Proof.
  intros H. destruct r as [e|li].
  - eapply parseLine_error_buffer; eauto.
  - apply parseLine_ok_inv in H
      as (info & p0 & p1 & p2 & p3 & p4 & v & Hcut & Hsp & Hlen & Hid & _ & _ & _ & _ & _ & _ & Hl & Hsafe).
    apply Cut_found in Hcut as [Hline _].
    pose proof (Split_head info " "%char) as Hh. rewrite Hsp in Hh. simpl in Hh.
    assert (Hp : take (length p0) line = p0).
    { rewrite Hline, take_app_le; [exact Hh|].
      rewrite <- Hh at 1. rewrite length_take. lia. }
    assert (Hn : (length p0 <= length line)%nat).
    { rewrite <- Hp at 1. rewrite length_take. lia. }
    rewrite Hid, Hsafe, Hl.
    rewrite sanitize_in_place_take by exact Hn. rewrite Hp.
    repeat split.
    + rewrite <- Hp at 1. now rewrite take_drop.
    + rewrite take_app_length' by now rewrite length_map. reflexivity.
Qed.

End ParserClaims.

(** ** The parser on sample records *)

Section ParserSamples.
Import Sample.

Ltac field_ok :=
  first [ lia
        | discriminate
        | reflexivity
        | solve [repeat constructor]
        | solve [split; cbv; intuition discriminate] ].

(** C4, witness: the record of the design document's scenario. *)
Lemma valid_record_round_trip_witness :
  parseLine [] jan2 src (B "dev1 42 12.5 3 2|hello world") =
    (inr {| Src := src; Timestamp := jan2; DeviceID := B "dev1"; SeqNum := 42;
            UptimeMs := 12500; FD := 3; Level := 2; Msg := B "hello world";
            TimestampStr := []; DeviceIDSafe := B "dev1";
            Year := B "2022"; Month := B "01"; Day := B "02";
            LevelChar := B "I" |},
     B "dev1 42 12.5 3 2|hello world").
Proof.
  apply (valid_record_round_trip (RT := runtime) [] jan2 src
           (B "dev1") (B "42") (B "12.5") (B "3") (B "2") (B "hello world")
           (S754_finite false 7036874417766400 (-49)) 12500); field_ok.
Defined.

(** C4, counterexample: the uptime 0.0009765625 s is 2^-10 s exactly and
    its product with 1000 is 0.9765625 exactly, which rounds to 1; the
    parsed event has [UptimeMs = 0]. *)
Lemma uptime_truncated_not_rounded :
  ParseFloat (B "0.0009765625") = Some (S754_finite false (2 ^ 52) (-62)) /\
  Float64.round (Float64.mul (S754_finite false (2 ^ 52) (-62)) (Float64.of_Z 1000))
    = Some 1 /\
  fst (parseLine [] jan2 src (B "dev1 42 0.0009765625 3 2|hello")) =
    inr {| Src := src; Timestamp := jan2; DeviceID := B "dev1"; SeqNum := 42;
           UptimeMs := 0; FD := 3; Level := 2; Msg := B "hello";
           TimestampStr := []; DeviceIDSafe := B "dev1";
           Year := B "2022"; Month := B "01"; Day := B "02";
           LevelChar := B "I" |}.
Proof. repeat split. Qed.

(** C5, witness: an uptime field that is no number. *)
Lemma uptime_rejected_iff_witness :
  fst (parseLine [] jan2 src (B "dev1 42 abc 3 2|hello")) = inl InvalidUptime
  <-> ParseFloat (B "abc") = None.
Proof.
  apply (uptime_rejected_iff (RT := runtime) [] jan2 src
           (B "dev1") (B "42") (B "abc") (B "3") (B "2") (B "hello")); field_ok.
Defined.

(** C5, counterexample: the uptime field "-1.5" parses to the negative
    float -1.5 and the line is accepted, not refused with
    [InvalidUptime]. *)
Lemma negative_uptime_accepted :
  ParseFloat (B "-1.5") = Some (S754_finite true (3 * 2 ^ 51) (-52)) /\
  Float64.is_negative (S754_finite true (3 * 2 ^ 51) (-52)) = true /\
  (exists li, fst (parseLine [] jan2 src (B "dev1 42 -1.5 3 2|hello")) = inr li) /\
  fst (parseLine [] jan2 src (B "dev1 42 -1.5 3 2|hello")) <> inl InvalidUptime.
Proof.
  assert (E : exists li, fst (parseLine [] jan2 src (B "dev1 42 -1.5 3 2|hello")) = inr li)
    by (eexists; reflexivity).
  repeat split; [exact E|]. destruct E as [li ->]. discriminate.
Qed.

(** C6, witness: level 17. *)
Lemma level_char_mapping_witness :
  exists li line',
    parseLine [] jan2 src (B "dev1 42 12.5 3 17|hello") = (inr li, line') /\
    Level li = 17 /\ LevelChar li = B "7".
Proof.
  eexists. eexists. split; [reflexivity|]. split; [reflexivity|].
  refine (proj1 (proj2 (proj2 (proj2 (proj2 (proj2 (proj2 (proj2
    (level_char_mapping (RT := runtime) [] jan2 src
       (B "dev1 42 12.5 3 17|hello") _ _ _)))))))) _);
    reflexivity.
Defined.

(** C8, witness: a device id with two bytes outside the allow-set. *)
Lemma parse_buffer_effect_witness :
  exists li line',
    parseLine [] jan2 src (B "my*dev! 42 1.5 3 2|x") = (inr li, line') /\
    line' = map sanitize_byte (DeviceID li)
            ++ drop (length (DeviceID li)) (B "my*dev! 42 1.5 3 2|x").
Proof.
  eexists. eexists. split; [reflexivity|].
  exact (proj1 (proj2 (parse_buffer_effect (RT := runtime) [] jan2 src
                         (B "my*dev! 42 1.5 3 2|x") (inr _) _ eq_refl))).
Defined.

(** C8, counterexample: after parsing a line whose device id is "my*dev!"
    the buffer reads "my_dev_ ...". *)
Lemma parse_overwrites_line_buffer :
  snd (parseLine [] jan2 src (B "my*dev! 42 1.5 3 2|x")) = B "my_dev_ 42 1.5 3 2|x" /\
  snd (parseLine [] jan2 src (B "my*dev! 42 1.5 3 2|x")) <> B "my*dev! 42 1.5 3 2|x".
Proof.
  assert (E : snd (parseLine [] jan2 src (B "my*dev! 42 1.5 3 2|x"))
              = B "my_dev_ 42 1.5 3 2|x") by reflexivity.
  split; [exact E|]. rewrite E. discriminate.
Qed.

End ParserSamples.

(** ** Running command trees *)

Section RunFacts.
Context {RT : GoRuntime} {W : Type} (h : handler W).

Lemma run_bind {A C} (p : prog A) (f : A -> prog C) (w : W) :
  run h (bind p f) w =
  let r1 := run h p w in
  let r2 := run h (f (fst (fst r1))) (snd (fst r1)) in
  (fst (fst r2), snd (fst r2), snd r1 ++ snd r2).
Proof.
  revert w. induction p as [a|X e k IH]; intros w; simpl.
  - destruct (run h (f a) w) as [[c w2] t2]. reflexivity.
  - destruct (h X e w) as [x w1]. rewrite IH.
    destruct (run h (k x) w1) as [[a w2] t1]. simpl.
    destruct (run h (f a) w2) as [[c w3] t2]. reflexivity.
Qed.

Lemma run_call {X} (e : sys X) (w : W) :
  run h (call e) w = (fst (h X e w), snd (h X e w), [observe e (fst (h X e w))]).
Proof. unfold call. simpl. destruct (h X e w). reflexivity. Qed.

(** Writing the pieces of a template to an open file makes writes to that
    file and no other call. *)
Lemma write_pieces_trace (f : File) (pieces : list bytes) (w : W) :
  Forall (is_write_to f) (snd (run h (write_pieces (File_Write (Some f)) pieces) w)).
Proof.
  revert w. induction pieces as [|p ps IH]; intros w; simpl.
  - constructor.
  - destruct (h _ (FileWrite f p) w) as [r w1]. simpl.
    destruct r as [err|]; simpl.
    + repeat constructor. now exists p, (Some err).
    + specialize (IH w1).
      destruct (run h (write_pieces (File_Write (Some f)) ps) w1) as [[r2 w2] t2].
      simpl in *. constructor; [now exists p, None | exact IH].
Qed.

Lemma Execute_trace (t : Template) (f : File) (li : LineInfo) (w : W) :
  Forall (is_write_to f) (snd (run h (Execute t (File_Write (Some f)) li) w)).
Proof.
  unfold Execute. destruct (t li) as [pieces failure].
  rewrite run_bind. cbv zeta.
  pose proof (write_pieces_trace f pieces w) as Hw.
  destruct (run h (write_pieces (File_Write (Some f)) pieces) w) as [[r w1] t1].
  simpl in *. destruct r; simpl; now rewrite app_nil_r.
Qed.

Lemma is_write_to_kind (f : File) (ev : event) :
  is_write_to f ev ->
  is_file_write ev = true /\ is_symlink_call ev = false /\
  is_klog_error ev = false /\ is_rotation_failure ev = false.
Proof. intros (d & r & ->). repeat split. Qed.

End RunFacts.

(** ** The file manager: every run is one of the listed outcomes *)

Section FileManagerRuns.
Context {RT : GoRuntime} {W : Type} (h : handler W).

Lemma run_update_latest lt li di w :
  let r := run h (update_latest lt li di) w in
  snd (fst (fst r)) = di /\
  link_outcome lt li di (fst (fst (fst r))) (snd r).
Proof.
  unfold update_latest. destruct lt as [t|]; simpl.
  2: split; [reflexivity | now constructor].
  destruct (execTmpl t li) as [e|latestName] eqn:Et; simpl.
  1: split; [reflexivity | now econstructor].
  destruct (h _ (Readlink latestName) w) as [target w1].
  destruct target as [e|target]; simpl.
  - destruct (h _ (Remove latestName) w1) as [r1 w2].
    destruct (h _ (Symlink (Filepath.Base (fname di)) latestName) w2) as [r2 w3].
    destruct r2 as [e2|]; simpl.
    + destruct (h _ (KlogErrorf _ _) w3) as [[] w4]. simpl. split; [reflexivity|].
      eapply (link_recreated _ _ _ t latestName (inl e) r1 (Some e2)); eauto; discriminate.
    + destruct (h _ (KlogInfof _ _) w3) as [[] w4]. simpl. split; [reflexivity|].
      eapply (link_recreated _ _ _ t latestName (inl e) r1 None); eauto; discriminate.
  - destruct (bool_decide (target = Filepath.Base (fname di))) eqn:Eb; simpl.
    + apply bool_decide_eq_true in Eb. subst target. split; [reflexivity|].
      eapply link_current; eauto.
    + apply bool_decide_eq_false in Eb.
      destruct (h _ (Remove latestName) w1) as [r1 w2].
      destruct (h _ (Symlink (Filepath.Base (fname di)) latestName) w2) as [r2 w3].
      destruct r2 as [e2|]; simpl.
      * destruct (h _ (KlogErrorf _ _) w3) as [[] w4]. simpl. split; [reflexivity|].
        eapply (link_recreated _ _ _ t latestName (inr target) r1 (Some e2)); eauto; congruence.
      * destruct (h _ (KlogInfof _ _) w3) as [[] w4]. simpl. split; [reflexivity|].
        eapply (link_recreated _ _ _ t latestName (inr target) r1 None); eauto; congruence.
Qed.

Lemma run_Close di w :
  let r := run h (Close di) w in
  snd (fst (fst r)) = set_fd di None /\ closing_events di (snd r) \/
  fd di = None /\ snd (fst (fst r)) = di /\ snd r = [].
Proof.
  unfold Close, closing_events. destruct (fd di) as [f|] eqn:Ef; simpl.
  - destruct (h _ (KlogInfof _ _) w) as [[] w1].
    destruct (h _ (FileClose f) w1) as [res w2]. simpl. left. split; [reflexivity|].
    now exists res.
  - right. auto.
Qed.

Lemma run_closing di w :
  let r := run h (if bool_decide (fd di <> None) then Close di else Ret (None, di)) w in
  closing_events di (snd r) /\
  fd (snd (fst (fst r))) = None /\
  lastUsed (snd (fst (fst r))) = lastUsed di.
Proof.
  unfold Close, closing_events. destruct (fd di) as [f|] eqn:Ef.
  - rewrite bool_decide_eq_true_2 by discriminate. simpl.
    destruct (h _ (KlogInfof _ _) w) as [[] w1].
    destruct (h _ (FileClose f) w1) as [res w2]. simpl.
    split; [now exists res | split; reflexivity].
  - rewrite bool_decide_eq_false_2 by tauto. simpl. auto.
Qed.

Lemma not_fast_path di name :
  bool_decide (fname di = name) && bool_decide (fd di <> None) = false ->
  ~ (fname di = name /\ fd di <> None).
Proof.
  intros Hb [H1 H2]. apply andb_false_iff in Hb as [Hb|Hb];
    apply bool_decide_eq_false in Hb; tauto.
Qed.

(** The part of [Open] after the handle has its new name and no file. *)
Lemma run_Open_rotate nt lt li di name closing w :
  execTmpl nt li = inr name -> ~ (fname di = name /\ fd di <> None) ->
  closing_events di closing ->
  let di0 := {| fd := None; fname := name; lastUsed := lastUsed di |} in
  let r := run h (r <- call (MkdirAll (Filepath.Dir name)) ;;
                  match r with
                  | Some err => Ret (Some (Annotatef err (B "failed to create log dir")), di0)
                  | None =>
                      r <- call (OpenFile (fname di0)) ;;
                      match r with
                      | inl err => Ret (Some err, di0)
                      | inr f =>
                          call (KlogInfof (B "Opened %s") [fname di0]) ;;;
                          update_latest lt li (set_fd di0 (Some f))
                      end
                  end) w in
  open_outcome nt lt li di (fst (fst (fst r))) (snd (fst (fst r))) (closing ++ snd r).
Proof.
  intros Hn Hslow Hc. simpl.
  destruct (h _ (MkdirAll (Filepath.Dir name)) w) as [r w1].
  destruct r as [e|]; simpl.
  { eapply open_mkdir_failed; eauto. }
  destruct (h _ (OpenFile name) w1) as [r w2].
  destruct r as [e|f]; simpl.
  { eapply open_file_failed; eauto. }
  destruct (h _ (KlogInfof _ _) w2) as [[] w3].
  pose proof (run_update_latest lt li
                {| fd := Some f; fname := name; lastUsed := lastUsed di |} w3) as [Hd Hl].
  unfold set_fd. simpl.
  destruct (run h (update_latest lt li _) w3) as [[[err di'] w4] links].
  simpl in *. subst di'.
  exact (open_opened nt lt li di name closing f err links Hn Hslow Hc Hl).
Qed.

(** Every run of [Open] is one of the outcomes. *)
Lemma run_Open nt lt li di w :
  let r := run h (Open nt lt li di) w in
  open_outcome nt lt li di (fst (fst (fst r))) (snd (fst (fst r))) (snd r).
Proof.
  unfold Open. destruct (execTmpl nt li) as [e|name] eqn:En.
  { simpl. now constructor. }
  destruct (bool_decide (fname di = name) && bool_decide (fd di <> None)) eqn:Efast.
  { apply andb_true_iff in Efast as [E1 E2].
    apply bool_decide_eq_true in E1. apply bool_decide_eq_true in E2.
    simpl. eapply open_fast_path; eauto. }
  apply not_fast_path in Efast.
  rewrite run_bind. cbv zeta.
  pose proof (run_closing di w) as (Hc & Hfd & Hlu).
  destruct (run h (if bool_decide (fd di <> None) then Close di else Ret (None, di)) w)
    as [[[e1 di1] w1] closing].
  cbn [fst snd] in *.
  replace (set_fname di1 name)
    with {| fd := None; fname := name; lastUsed := lastUsed di |}
    by (unfold set_fname; now rewrite Hfd, Hlu).
  exact (run_Open_rotate nt lt li di name closing w1 En Efast Hc).
Qed.

Lemma open_ok_has_file nt lt li di di' tr :
  open_outcome nt lt li di None di' tr -> exists f, fd di' = Some f.
Proof.
  inversion 1; subst; simpl; eauto.
  destruct (fd di') as [f|]; [eauto | congruence].
Qed.

Lemma run_handle_for fm li w :
  let r := run h (match devices fm !! DeviceIDSafe li with
                  | Some di => Ret di
                  | None => now <- call TimeNow ;;
                            Ret {| fd := None; fname := []; lastUsed := now |}
                  end) w in
  handle_for fm li (fst (fst r)) (snd r).
Proof.
  unfold handle_for. destruct (devices fm !! DeviceIDSafe li) as [di|]; simpl.
  - auto.
  - destruct (h _ TimeNow w) as [now w1]. simpl. auto.
Qed.

(** Every run of [WriteLine] is one of the outcomes. *)
Lemma run_WriteLine fm li w :
  let r := run h (WriteLine fm li) w in
  writeline_outcome fm li (fst (fst r)) (snd r).
Proof.
  unfold WriteLine. rewrite run_bind. cbv zeta.
  pose proof (run_handle_for fm li w) as Hh. cbv zeta in Hh.
  destruct (run h (match devices fm !! DeviceIDSafe li with
                   | Some di => Ret di | None => _ end) w) as [[di w1] pre].
  cbn [fst snd] in *.
  rewrite run_bind. cbv zeta.
  pose proof (run_Open (nameTmpl fm) (latestNameTmpl fm) li di w1) as Ho. cbv zeta in Ho.
  destruct (run h (Open (nameTmpl fm) (latestNameTmpl fm) li di) w1)
    as [[[err di'] w2] tr].
  cbn [fst snd] in *.
  destruct err as [e|].
  - simpl. destruct (h _ (KlogErrorf _ _) w2) as [[] w3]. simpl.
    eapply line_dropped; eauto.
  - destruct (open_ok_has_file _ _ _ _ _ _ Ho) as [f Hf]. rewrite Hf.
    rewrite run_bind. cbv zeta.
    pose proof (Execute_trace h (recordTmpl fm) f li w2) as He.
    destruct (run h (Execute (recordTmpl fm) (File_Write (Some f)) li) w2)
      as [[r3 w3] writes].
    cbn [fst snd] in *. simpl.
    destruct (h _ (FileWrite f _) w3) as [res w4].
    destruct (h _ TimeNow w4) as [now w5]. simpl.
    eapply line_written; eauto.
Qed.

End FileManagerRuns.

(** ** The file manager: rotation, the latest symlink and failures *)

Section FileManagerClaims.
Context {RT : GoRuntime} {W : Type} (h : handler W).

Lemma existsb_app_false {A} (P : A -> bool) (l1 l2 : list A) :
  existsb P l1 = false -> existsb P l2 = false -> existsb P (l1 ++ l2) = false.
Proof. intros H1 H2. now rewrite existsb_app, H1, H2. Qed.

Lemma existsb_writes (P : event -> bool) (f : File) (writes : list event) :
  (forall data res, P (EvFileWrite f data res) = false) ->
  Forall (is_write_to f) writes -> existsb P writes = false.
Proof.
  intros HP. induction 1 as [|ev l (d & r & ->) _ IH]; simpl; [reflexivity|].
  now rewrite HP, IH.
Qed.

Lemma handle_for_quiet fm li di pre :
  handle_for fm li di pre ->
  existsb is_file_write pre = false /\ existsb is_symlink_call pre = false /\
  existsb is_klog_error pre = false /\ existsb is_rotation_failure pre = false /\
  existsb is_file_opened pre = false.
Proof.
  unfold handle_for. destruct (devices fm !! DeviceIDSafe li).
  - intros [_ ->]. repeat split.
  - intros (_ & _ & ->). repeat split.
Qed.

Lemma closing_quiet di tr :
  closing_events di tr ->
  existsb is_file_write tr = false /\ existsb is_symlink_call tr = false /\
  existsb is_klog_error tr = false /\ existsb is_rotation_failure tr = false /\
  existsb is_file_opened tr = false.
Proof.
  unfold closing_events. destruct (fd di).
  - intros [res ->]. repeat split.
  - intros ->. repeat split.
Qed.

Lemma link_quiet lt li di err tr :
  link_outcome lt li di err tr ->
  existsb is_file_write tr = false /\ existsb is_rotation_failure tr = false.
Proof. inversion 1; subst; try destruct r2; repeat split. Qed.

(** [Open] writes to no file. *)
Lemma open_no_write nt lt li di err di' tr :
  open_outcome nt lt li di err di' tr -> existsb is_file_write tr = false.
Proof.
  inversion 1 as [ | | ? ? ? ? ? Hc | ? ? ? ? ? Hc | ? ? ? ? ? ? ? Hc Hl ];
    subst; try reflexivity;
    destruct (closing_quiet _ _ Hc) as (Hq & _);
    apply existsb_app_false; auto.
  destruct (link_quiet _ _ _ _ _ Hl) as (Hw & _). simpl. exact Hw.
Qed.

(** A run of [Open] in which a directory creation or a file open failed
    returns an error and leaves the handle with the new name and no
    file. *)
Lemma open_rotation_failure nt lt li di err di' tr name :
  open_outcome nt lt li di err di' tr ->
  execTmpl nt li = inr name ->
  existsb is_rotation_failure tr = true ->
  (exists e, err = Some e) /\ fd di' = None /\ fname di' = name.
Proof.
  intros Ho Hn Hf.
  inversion Ho as [ | | n0 ? ? Hn0 ? Hc | n0 ? ? Hn0 ? Hc | n0 ? ? ? ? Hn0 ? Hc Hl ];
    subst; simpl in Hf; try discriminate;
    assert (n0 = name) by congruence; subst n0;
    try solve [repeat split; eauto].
  exfalso.
  destruct (closing_quiet _ _ Hc) as (_ & _ & _ & Hq & _).
  destruct (link_quiet _ _ _ _ _ Hl) as (_ & Hq2).
  rewrite existsb_app in Hf. simpl in Hf. rewrite Hq, Hq2 in Hf.
  discriminate.
Qed.

Lemma existsb_split {A} (P : A -> bool) (l1 l2 pre post : list A) (x : A) :
  existsb P l1 = false -> P x = true -> l1 ++ l2 = pre ++ x :: post ->
  exists pre2, l2 = pre2 ++ x :: post.
Proof.
  revert pre. induction l1 as [|a l1 IH]; simpl; intros pre H1 Hx E.
  - eauto.
  - apply orb_false_iff in H1 as [Ha H1].
    destruct pre as [|b pre]; simpl in E; inversion E; subst.
    + congruence.
    + eapply IH; eauto.
Qed.

Lemma existsb_suffix {A} (P : A -> bool) (l pre post : list A) (x : A) :
  existsb P l = false -> l = pre ++ x :: post -> existsb P post = false.
Proof.
  intros H ->. rewrite existsb_app in H. simpl in H.
  apply orb_false_iff in H as [_ H]. now apply orb_false_iff in H.
Qed.

(** C2 (amended): when a directory creation or a file open fails during
    [WriteLine], the line is dropped and the error is logged; the handle
    then carries the new target name (not the name it had before) and no
    file, and a handle with no file makes the next [Open] start again at
    the directory creation. *)
Theorem failed_rotation_forces_retry fm li name w :
  execTmpl (nameTmpl fm) li = inr name ->
  existsb is_rotation_failure (snd (run h (WriteLine fm li) w)) = true ->
  let fm' := fst (fst (run h (WriteLine fm li) w)) in
  let tr := snd (run h (WriteLine fm li) w) in
  existsb is_file_write tr = false /\
  (exists e, last tr = Some (EvKlogErrorf (B "Failed to open log file: %v") [e])) /\
  exists di',
    devices fm' !! DeviceIDSafe li = Some di' /\
    fd di' = None /\ fname di' = name /\
    forall lt li2 name2,
      execTmpl (nameTmpl fm') li2 = inr name2 ->
      exists k, Open (nameTmpl fm') lt li2 di' = Vis (MkdirAll (Filepath.Dir name2)) k.
Proof.
  intros Hn Hf. cbv zeta.
  pose proof (run_WriteLine h fm li w) as Hr. cbv zeta in Hr.
  destruct (run h (WriteLine fm li) w) as [[fm' w'] tr]. cbn [fst snd] in *.
  assert (Hopen : forall di pre err di' tro rest,
             handle_for fm li di pre ->
             open_outcome (nameTmpl fm) (latestNameTmpl fm) li di err di' tro ->
             existsb is_rotation_failure rest = false ->
             existsb is_rotation_failure (pre ++ tro ++ rest) = true ->
             (exists e, err = Some e) /\ fd di' = None /\ fname di' = name).
  { intros di pre err di' tro rest Hh Ho Hrest Hex.
    destruct (handle_for_quiet _ _ _ _ Hh) as (_ & _ & _ & Hq & _).
    rewrite !existsb_app, Hq, Hrest, orb_false_r in Hex. simpl in Hex.
    eapply open_rotation_failure; eauto. }
  inversion Hr as [di pre e di' tro Hh Ho | di pre di' tro f writes res now Hh Ho Hfd Hw];
    subst.
  - destruct (Hopen _ _ _ _ _ [EvKlogErrorf (B "Failed to open log file: %v") [e]]
                     Hh Ho eq_refl Hf) as (_ & Hfd & Hname).
    split.
    { destruct (handle_for_quiet _ _ _ _ Hh) as (Hq & _).
      rewrite !existsb_app, Hq, (open_no_write _ _ _ _ _ _ _ Ho). reflexivity. }
    split.
    { exists e. now rewrite !app_assoc, last_snoc. }
    exists di'. split; [apply lookup_insert_eq|]. split; [exact Hfd|]. split; [exact Hname|].
    intros lt li2 name2 Hn2. simpl in Hn2. unfold Open. simpl nameTmpl. rewrite Hn2.
    rewrite Hfd. rewrite (bool_decide_eq_false_2 (None <> None)) by tauto.
    rewrite andb_false_r. simpl. eexists. reflexivity.
  - exfalso.
    assert (Hrest : existsb is_rotation_failure
                      (writes ++ [EvFileWrite f ["010"%char] res; EvTimeNow]) = false).
    { apply existsb_app_false; [|reflexivity].
      eapply existsb_writes; eauto. }
    destruct (Hopen _ _ _ _ _ _ Hh Ho Hrest Hf) as ([e He] & _). discriminate.
Qed.

(** C10 (amended): a failed directory creation or file open during
    [WriteLine] is reported with [klog.Errorf] and the line is dropped;
    nothing is reported once a write to the file has been made, whatever
    that write or a later one returned, so a failed write goes
    unreported. *)
Theorem rotation_errors_logged_write_errors_not fm li w :
  let tr := snd (run h (WriteLine fm li) w) in
  (existsb is_rotation_failure tr = true ->
     existsb is_file_write tr = false /\
     exists e, last tr = Some (EvKlogErrorf (B "Failed to open log file: %v") [e])) /\
  (forall pre ev post,
     tr = pre ++ ev :: post -> is_file_write ev = true ->
     existsb is_klog_error post = false).
Proof.
  cbv zeta.
  pose proof (run_WriteLine h fm li w) as Hr. cbv zeta in Hr.
  destruct (run h (WriteLine fm li) w) as [[fm' w'] tr]. cbn [fst snd] in *.
  inversion Hr as [di pre e di' tro Hh Ho | di pre di' tro f writes res now Hh Ho Hfd Hw];
    subst.
  - destruct (handle_for_quiet _ _ _ _ Hh) as (Hq & _).
    pose proof (open_no_write _ _ _ _ _ _ _ Ho) as Hno.
    assert (Hall : existsb is_file_write
                     (pre ++ tro ++ [EvKlogErrorf (B "Failed to open log file: %v") [e]])
                   = false).
    { rewrite !existsb_app, Hq, Hno. reflexivity. }
    split.
    + intros _. split; [exact Hall|]. exists e. now rewrite !app_assoc, last_snoc.
    + intros pre0 ev post E Hev. exfalso.
      rewrite E, existsb_app in Hall. simpl in Hall. rewrite Hev in Hall.
      rewrite orb_true_r in Hall. discriminate.
  - destruct (handle_for_quiet _ _ _ _ Hh) as (Hq & _ & _ & Hqr & _).
    pose proof (open_no_write _ _ _ _ _ _ _ Ho) as Hno.
    split.
    + intros Hf. exfalso.
      destruct (open_ok_has_file _ _ _ _ _ _ Ho) as [f' Hf'].
      rewrite !existsb_app, Hqr in Hf. simpl in Hf.
      rewrite (existsb_writes is_rotation_failure f writes) in Hf by auto.
      simpl in Hf. rewrite orb_false_r in Hf.
      rename Hf into Hf1.
      inversion Ho as [ | | | | n0 ? ? ? ? Hn0 ? Hc Hl ]; subst; simpl in Hf1;
        try discriminate.
      destruct (closing_quiet _ _ Hc) as (_ & _ & _ & Hc1 & _).
      destruct (link_quiet _ _ _ _ _ Hl) as (_ & Hl1).
      rewrite existsb_app in Hf1. simpl in Hf1. rewrite Hc1, Hl1 in Hf1. discriminate.
    + intros pre0 ev post E Hev.
      rewrite app_assoc in E.
      assert (Hno2 : existsb is_file_write (pre ++ tro) = false)
        by (now apply existsb_app_false).
      destruct (existsb_split _ _ _ _ _ _ Hno2 Hev E) as [pre2 E2].
      eapply existsb_suffix; [|exact E2].
      apply existsb_app_false; [|reflexivity].
      eapply existsb_writes; eauto.
Qed.

Lemma open_file_opened nt lt li di err di' tr :
  open_outcome nt lt li di err di' tr ->
  existsb is_file_opened tr = true ->
  exists name closing f links,
    execTmpl nt li = inr name /\ closing_events di closing /\
    link_outcome lt li {| fd := Some f; fname := name; lastUsed := lastUsed di |} err links /\
    tr = closing ++ [EvMkdirAll (Filepath.Dir name) None; EvOpenFile name (inr f);
                     EvKlogInfof (B "Opened %s") [name]] ++ links.
Proof.
  intros Ho Hex.
  inversion Ho as [ | | ? ? ? ? ? Hc | ? ? ? ? ? Hc | n0 closing f e0 links Hn0 ? Hc Hl ];
    subst; simpl in Hex; try discriminate.
  - destruct (closing_quiet _ _ Hc) as (_ & _ & _ & _ & Hq).
    rewrite existsb_app, Hq in Hex. discriminate.
  - destruct (closing_quiet _ _ Hc) as (_ & _ & _ & _ & Hq).
    rewrite existsb_app, Hq in Hex. discriminate.
  - exists n0, closing, f, links. auto.
Qed.

(** C1 (amended): on the fast path (the target name is the name of the
    file that is open) [Open] returns at once without a system call, so
    the latest symlink is neither read nor recreated and [WriteLine] only
    writes the line; the symlink is read, and removed and recreated when
    missing or different from the base name of the file, in a call that
    has just opened the file, before the line is written. *)
Theorem latest_symlink_only_after_open fm li name lt latestName w :
  execTmpl (nameTmpl fm) li = inr name ->
  latestNameTmpl fm = Some lt -> execTmpl lt li = inr latestName ->
  let tr := snd (run h (WriteLine fm li) w) in
  (forall di,
      devices fm !! DeviceIDSafe li = Some di -> fname di = name -> fd di <> None ->
      Open (nameTmpl fm) (latestNameTmpl fm) li di = Ret (None, di) /\
      existsb is_symlink_call tr = false /\
      exists f writes res,
        fd di = Some f /\ Forall (is_write_to f) writes /\
        tr = writes ++ [EvFileWrite f [ "010"%char ] res; EvTimeNow]) /\
  (existsb is_file_opened tr = true ->
     exists pre target rest,
       tr = pre ++ EvReadlink latestName target :: rest /\
       existsb is_file_write pre = false /\
       (target = inr (Filepath.Base name) \/
        exists r1 r2 rest',
          rest = EvRemove latestName r1
                 :: EvSymlink (Filepath.Base name) latestName r2 :: rest')).
Proof.
  intros Hn Hlt Hln. cbv zeta.
  pose proof (run_WriteLine h fm li w) as Hr. cbv zeta in Hr.
  destruct (run h (WriteLine fm li) w) as [[fm' w'] tr]. cbn [fst snd] in *.
  split.
  - intros di Hdi Hname Hfd. split.
    { unfold Open. rewrite Hn.
      rewrite (bool_decide_eq_true_2 _ Hname), (bool_decide_eq_true_2 _ Hfd).
      reflexivity. }
    assert (Hfast : forall err di' tro,
               open_outcome (nameTmpl fm) (latestNameTmpl fm) li di err di' tro ->
               err = None /\ di' = di /\ tro = []).
    { intros err di' tro Ho. inversion Ho; subst; auto; try congruence;
        assert (name0 = fname di) by congruence; subst; tauto. }
    inversion Hr as [di0 pre e di' tro Hh Ho | di0 pre di' tro f writes res now Hh Ho Hf Hw];
      subst; unfold handle_for in Hh; rewrite Hdi in Hh; destruct Hh as [-> ->];
      destruct (Hfast _ _ _ Ho) as (He & -> & ->); [discriminate|].
    simpl. split.
    + apply existsb_app_false; [|reflexivity]. eapply existsb_writes; eauto.
    + exists f, writes, res. auto.
  - intros Hex.
    assert (Hopened : exists di pre err di' tro rest,
               handle_for fm li di pre /\
               open_outcome (nameTmpl fm) (latestNameTmpl fm) li di err di' tro /\
               tr = pre ++ tro ++ rest /\ existsb is_file_opened tro = true).
    { inversion Hr as [di pre e di' tro Hh Ho | di pre di' tro f writes res now Hh Ho Hf Hw];
        subst; destruct (handle_for_quiet _ _ _ _ Hh) as (_ & _ & _ & _ & Hq);
        rewrite !existsb_app, Hq in Hex; simpl in Hex.
      - rewrite orb_false_r in Hex. repeat eexists; eauto.
      - rewrite (existsb_writes is_file_opened f writes) in Hex by auto.
        simpl in Hex. rewrite orb_false_r in Hex. repeat eexists; eauto. }
    destruct Hopened as (di & pre & err & di' & tro & rest & Hh & Ho & -> & Hex2).
    destruct (open_file_opened _ _ _ _ _ _ _ Ho Hex2)
      as (n0 & closing & f & links & Hn0 & Hc & Hl & ->).
    assert (n0 = name) by congruence. subst n0.
    destruct (handle_for_quiet _ _ _ _ Hh) as (Hq & _).
    destruct (closing_quiet _ _ Hc) as (Hqc & _).
    set (head := pre ++ closing ++ [EvMkdirAll (Filepath.Dir name) None;
                                    EvOpenFile name (inr f);
                                    EvKlogInfof (B "Opened %s") [name]]).
    assert (Hhead : existsb is_file_write head = false).
    { subst head. rewrite !existsb_app, Hq, Hqc. reflexivity. }
    inversion Hl as [ E | t e0 E Et | t ln E Et | t ln target r1 r2 E Et Hne ]; subst;
      try congruence;
      assert (t = lt) by congruence; subst t;
      assert (ln = latestName) by congruence; subst ln; simpl.
    + exists head, (inr (Filepath.Base name)), rest. split; [|split; [exact Hhead | now left]].
      subst head. repeat (rewrite <- ?app_assoc; simpl). reflexivity.
    + eexists head, target, _. split; [|split; [exact Hhead | right; eauto]].
      subst head. repeat (rewrite <- ?app_assoc; simpl). reflexivity.
Qed.

End FileManagerClaims.

(** ** The file manager on sample runs *)

Section FileManagerSamples.
Import Sample.

Lemma manager_open_lookup d :
  devices (manager_open d) !! B "dev1"
  = Some {| fd := Some 3%nat; fname := log_name d; lastUsed := d |}.
Proof. apply lookup_insert_eq. Qed.

(** C1, witness: a line for a device whose file of the day is open. *)
Lemma latest_symlink_only_after_open_witness :
  existsb is_symlink_call
    (snd (run os (WriteLine (manager_open jan2) (hello jan2)) (fs_open jan2))) = false.
Proof.
  refine (proj1 (proj2 (proj1
    (latest_symlink_only_after_open os (manager_open jan2) (hello jan2)
       (log_name jan2) (latestDeviceLogTmpl (B "logs")) (B "logs/dev1/dev1.log")
       (fs_open jan2) eq_refl eq_refl eq_refl)
    _ (manager_open_lookup jan2) eq_refl _))).
  discriminate.
Defined.

(** C1, counterexample: the latest pattern is configured, the file of the
    day is open and the symlink does not exist; the write reads no symlink
    and makes none, and the symlink is still missing afterwards. *)
Lemma fast_path_leaves_symlink_missing :
  (exists lt, latestNameTmpl (manager_open jan2) = Some lt /\
              execTmpl lt (hello jan2) = inr (B "logs/dev1/dev1.log")) /\
  links (fs_open jan2) !! B "logs/dev1/dev1.log" = None /\
  snd (run os (WriteLine (manager_open jan2) (hello jan2)) (fs_open jan2))
  = [EvFileWrite 3%nat [] None; EvFileWrite 3%nat (B " ") None;
     EvFileWrite 3%nat (B "10.0.0.7:1993") None;
     EvFileWrite 3%nat (B " ") None; EvFileWrite 3%nat (B "I") None;
     EvFileWrite 3%nat (B " ") None;
     EvFileWrite 3%nat (B "hello world") None;
     EvFileWrite 3%nat [ "010"%char ] None; EvTimeNow] /\
  existsb is_symlink_call
    (snd (run os (WriteLine (manager_open jan2) (hello jan2)) (fs_open jan2))) = false /\
  links (snd (fst (run os (WriteLine (manager_open jan2) (hello jan2)) (fs_open jan2))))
    !! B "logs/dev1/dev1.log" = None.
Proof.
  split; [eexists; split; reflexivity|].
  repeat split; vm_compute; reflexivity.
Qed.

(** C2, witness: the day has changed and the file system refuses to
    create anything. *)
Lemma failed_rotation_forces_retry_witness :
  existsb is_file_write
    (snd (run os (WriteLine (manager_open jan2) (hello jan3))
              (make_readonly (fs_open jan2)))) = false.
Proof.
  refine (proj1 (failed_rotation_forces_retry os (manager_open jan2) (hello jan3)
                   (log_name jan3) (make_readonly (fs_open jan2)) eq_refl _)).
  vm_compute. reflexivity.
Defined.

(** C2, counterexample: before the failed attempt the handle names the
    file of January 2; after it, it names the file of January 3. *)
Lemma failed_rotation_changes_fname :
  existsb is_rotation_failure
    (snd (run os (WriteLine (manager_open jan2) (hello jan3))
              (make_readonly (fs_open jan2)))) = true /\
  fname <$> devices (manager_open jan2) !! B "dev1"
    = Some (B "logs/dev1/dev1.20220102.log") /\
  fname <$> devices (fst (fst (run os (WriteLine (manager_open jan2) (hello jan3))
                                   (make_readonly (fs_open jan2))))) !! B "dev1"
    = Some (B "logs/dev1/dev1.20220103.log") /\
  fd <$> devices (fst (fst (run os (WriteLine (manager_open jan2) (hello jan3))
                                (make_readonly (fs_open jan2))))) !! B "dev1"
    = Some None.
Proof. repeat split; vm_compute; reflexivity. Qed.

(** C10, witness: the same failed rotation is reported. *)
Lemma rotation_errors_logged_witness :
  exists e,
    last (snd (run os (WriteLine (manager_open jan2) (hello jan3))
                   (make_readonly (fs_open jan2))))
    = Some (EvKlogErrorf (B "Failed to open log file: %v") [e]).
Proof.
  refine (proj2 (proj1 (rotation_errors_logged_write_errors_not os
                          (manager_open jan2) (hello jan3)
                          (make_readonly (fs_open jan2))) _)).
  vm_compute. reflexivity.
Defined.

(** C10, counterexample: the disk is full; every write of the line fails,
    nothing is logged and the file has not grown. *)
Lemma write_failure_not_logged :
  existsb is_write_failure
    (snd (run os (WriteLine (manager_open jan2) (hello jan2))
              (make_full (fs_open jan2)))) = true /\
  existsb is_klog_error
    (snd (run os (WriteLine (manager_open jan2) (hello jan2))
              (make_full (fs_open jan2)))) = false /\
  snd (run os (WriteLine (manager_open jan2) (hello jan2)) (make_full (fs_open jan2)))
  = [EvFileWrite 3%nat [] (Some (B "no space left on device"));
     EvFileWrite 3%nat [ "010"%char ] (Some (B "no space left on device"));
     EvTimeNow] /\
  contents (snd (fst (run os (WriteLine (manager_open jan2) (hello jan2))
                          (make_full (fs_open jan2)))))
    !! B "logs/dev1/dev1.20220102.log" = Some [].
Proof. repeat split; vm_compute; reflexivity. Qed.

(** C3, the failing input: the device id [..] passes the sanitizer
    unchanged, the file name made from it has [..] as an element, and the
    file lands in the parent of the log directory. *)
Lemma dotdot_device_id_escapes_log_dir :
  fst (parseLine [] jan2 src (B ".. 1 1.0 1 1|x")) = inr dotdot /\
  DeviceIDSafe dotdot = B ".." /\
  execTmpl (deviceLogTmpl (B "/srv/logs")) dotdot
    = inr (B "/srv/logs/../...20220102.log") /\
  In (B "..") (GoBytes.Split (B "/srv/logs/../...20220102.log") "/") /\
  Filepath.Clean (B "/srv/logs/../...20220102.log") = B "/srv/...20220102.log" /\
  Filepath.Dir (B "/srv/logs/../...20220102.log") = B "/srv" /\
  execTmpl (latestDeviceLogTmpl (B "/srv/logs")) dotdot = inr (B "/srv/logs/../...log").
Proof.
  split; [reflexivity|]. split; [reflexivity|]. split; [reflexivity|].
  split; [vm_compute; tauto|]. repeat split.
Qed.

End FileManagerSamples.

(** ** The packet loop *)

Section PacketFacts.
Import GoBytes.

Lemma ReadBytes_Cut (buf : bytes) (delim : ascii) :
  ReadBytes buf delim =
  match Cut buf delim with
  | (before, after, true) => (before ++ [delim], after)
  | (_, _, false) => (buf, [])
  end.
Proof.
  induction buf as [|c buf IH]; simpl; [reflexivity|].
  destruct (Ascii.eqb c delim) eqn:E.
  - apply Ascii.eqb_eq in E. now subst.
  - rewrite IH. destruct (Cut buf delim) as [[b a] []]; reflexivity.
Qed.

Lemma TrimRight_snoc (s cutset : bytes) (c : ascii) :
  in_cutset cutset c = true -> TrimRight (s ++ [c]) cutset = TrimRight s cutset.
Proof.
  intros Hc. induction s as [|a s IH]; simpl.
  - now rewrite Hc.
  - now rewrite IH.
Qed.

Lemma Cut_lengths (s before after : bytes) (sep : ascii) :
  Cut s sep = (before, after, true) ->
  (length s = length before + 1 + length after)%nat.
Proof.
  intros H. apply Cut_found in H as [-> _]. rewrite length_app. simpl. lia.
Qed.

End PacketFacts.

Section PacketClaims.
Context {RT : GoRuntime}.
Variable tsFormat : bytes.
Variable stdoutTmpl : option Template.
Import GoBytes.

(** A line of fewer than ten bytes does not parse: five fields that are
    not empty, four spaces and the delimiter make ten. *)
Lemma short_line_rejected ts src line :
  ParseFloat [] = None -> (length line < 10)%nat ->
  exists e, fst (parseLine tsFormat ts src line) = inl e.
Proof.
  intros Hpf Hlen.
  destruct (parseLine tsFormat ts src line) as [[e|li] line'] eqn:Ep; [eauto|].
  exfalso. apply parseLine_ok_inv in Ep
    as (info & p0 & p1 & p2 & p3 & p4 & v & Hcut & Hsp & Hl0 & _ & H1 & H2 & _ & H3 & H4 & _).
  apply Cut_lengths in Hcut.
  pose proof (Split_total_length info " "%char) as Hs. rewrite Hsp in Hs. simpl in Hs.
  assert (p1 <> []) by (intros ->; discriminate H1).
  assert (p2 <> []) by (intros ->; congruence).
  assert (p3 <> []) by (intros ->; discriminate H3).
  assert (p4 <> []) by (intros ->; discriminate H4).
  destruct p1, p2, p3, p4; try congruence. simpl in *. lia.
Qed.

(** A line that does not parse changes nothing and makes no call. *)
Lemma processLine_rejected ts src line fm e :
  fst (parseLine tsFormat ts src line) = inl e ->
  processLine tsFormat stdoutTmpl ts src line fm = Ret (Some e, fm, line).
Proof.
  intros H. unfold processLine.
  destruct (parseLine tsFormat ts src line) as [r line'] eqn:Ep. simpl in H. subst r.
  apply parseLine_error_buffer in Ep. now subst.
Qed.

(** The loop does what processing its lines one by one does. *)
Lemma packet_loop_process_all {W} (h : handler W) fuel ts src buf fm w :
  run h (packet_loop tsFormat stdoutTmpl fuel ts src buf fm) w =
  run h (process_all tsFormat stdoutTmpl ts src (packet_lines fuel buf) fm) w.
Proof.
  revert buf fm w. induction fuel as [|fuel IH]; intros buf fm w; simpl; [reflexivity|].
  destruct (10 <? length buf)%nat; [|reflexivity].
  destruct (ReadBytes buf "010") as [line rest]. simpl.
  rewrite !run_bind. cbv zeta.
  destruct (run h (processLine tsFormat stdoutTmpl ts src (TrimRight line crlf) fm) w)
    as [[[[err fm'] line'] w1] t1].
  cbn [fst snd]. rewrite !run_bind. cbv zeta. now rewrite IH.
Qed.

(** More fuel than the buffer has bytes changes nothing. *)
Lemma packet_lines_enough f1 f2 buf :
  (length buf <= f1)%nat -> (length buf <= f2)%nat ->
  packet_lines f1 buf = packet_lines f2 buf.
Proof.
  revert f2 buf. induction f1 as [|f1 IH]; intros f2 buf H1 H2.
  - destruct buf; [|simpl in H1; lia]. destruct f2; reflexivity.
  - destruct f2 as [|f2].
    + destruct buf; [reflexivity | simpl in H2; lia].
    + cbn [packet_lines]. destruct (10 <? length buf)%nat eqn:E; [|reflexivity].
      assert (Hne : buf <> []) by (intros ->; discriminate E).
      pose proof (ReadBytes_progress buf "010" Hne) as Hp.
      destruct (ReadBytes buf "010") as [line rest]. simpl in Hp.
      f_equal. apply IH; lia.
Qed.

Lemma packet_lines_fuel fuel buf :
  (length buf <= fuel)%nat -> packet_lines fuel buf = packet_lines (length buf) buf.
Proof. intros H. now apply packet_lines_enough. Qed.

Lemma records_enough f1 f2 buf :
  (length buf <= f1)%nat -> (length buf <= f2)%nat ->
  records f1 buf = records f2 buf.
Proof.
  revert f2 buf. induction f1 as [|f1 IH]; intros f2 buf H1 H2.
  - destruct buf; [|simpl in H1; lia]. destruct f2; reflexivity.
  - destruct f2 as [|f2].
    + destruct buf; [reflexivity | simpl in H2; lia].
    + cbn [records]. destruct (Cut buf "010") as [[before after] []] eqn:Ec;
        [|reflexivity].
      apply Cut_lengths in Ec. f_equal. apply IH; lia.
Qed.

Lemma records_shorter fuel buf :
  Forall (fun r => (length r < length buf)%nat) (records fuel buf).
Proof.
  revert buf. induction fuel as [|fuel IH]; intros buf; simpl; [constructor|].
  destruct (Cut buf "010") as [[before after] []] eqn:Ec; [|constructor].
  apply Cut_lengths in Ec. constructor.
  - pose proof (TrimRight_length before crlf). lia.
  - eapply Forall_impl; [apply IH|]. simpl. intros r Hr. lia.
Qed.

(** The lines the loop processes are the records from the first on, until
    ten bytes or fewer are left; the records it leaves out have fewer than
    ten bytes, and the last line it processes may be what follows the last
    newline. *)
Lemma packet_lines_records fuel buf :
  (length buf <= fuel)%nat ->
  exists processed skipped final,
    records fuel buf = processed ++ skipped /\
    packet_lines fuel buf = processed ++ final /\
    Forall (fun r => (length r < 10)%nat) skipped /\
    (final = [] \/ skipped = [] /\ exists l, final = [l]).
Proof.
  revert buf. induction fuel as [|fuel IH]; intros buf Hf.
  - exists [], [], []. simpl. repeat split; auto.
  - cbn [packet_lines records].
    destruct (10 <? length buf)%nat eqn:E10.
    + rewrite ReadBytes_Cut.
      destruct (Cut buf "010") as [[before after] []] eqn:Ec.
      * pose proof (Cut_lengths _ _ _ _ Ec) as Hl.
        destruct (IH after ltac:(lia)) as (pr & sk & fi & H1 & H2 & H3 & H4).
        exists (TrimRight before crlf :: pr), sk, fi.
        rewrite TrimRight_snoc by reflexivity. simpl. rewrite H1, H2. auto.
      * exists [], [], [TrimRight buf crlf]. simpl. repeat split; auto.
        -- destruct fuel; reflexivity.
        -- right. eauto.
    + apply Nat.ltb_ge in E10.
      exists [], (match Cut buf "010" with
                  | (before, after, true) => TrimRight before crlf :: records fuel after
                  | (_, _, false) => []
                  end), [].
      repeat split; auto.
      pose proof (records_shorter (S fuel) buf) as Hs. cbn [records] in Hs.
      eapply Forall_impl; [exact Hs|]. simpl. intros r Hr. lia.
Qed.

(** C9 (amended): the loop over a packet takes the newline-terminated
    records in order, trims each and processes it with the state the
    record before left, whether or not that one parsed; a record that does
    not parse changes nothing and is logged. The loop stops when ten bytes
    or fewer are left unread: the records in that rest are not processed
    (they have fewer than ten bytes and could not parse), and what follows
    the last newline is processed as a line too when more than ten bytes
    long. *)
Theorem packet_records_processed ts src pkt fm fuel :
  (length pkt <= fuel)%nat ->
  (forall W (h : handler W) w,
      run h (packet_loop tsFormat stdoutTmpl fuel ts src pkt fm) w =
      run h (process_all tsFormat stdoutTmpl ts src
                         (packet_lines (length pkt) pkt) fm) w) /\
  (forall line fm0 e,
      fst (parseLine tsFormat ts src line) = inl e ->
      processLine tsFormat stdoutTmpl ts src line fm0 = Ret (Some e, fm0, line)) /\
  exists processed skipped final,
    records (length pkt) pkt = processed ++ skipped /\
    packet_lines (length pkt) pkt = processed ++ final /\
    Forall (fun r => (length r < 10)%nat) skipped /\
    (ParseFloat [] = None ->
     Forall (fun r => exists e, fst (parseLine tsFormat ts src r) = inl e) skipped) /\
    (final = [] \/ skipped = [] /\ exists l, final = [l]).
Proof.
  intros Hf. split; [|split].
  - intros W h w. rewrite packet_loop_process_all.
    now rewrite packet_lines_fuel by exact Hf.
  - intros line fm0 e. apply processLine_rejected.
  - destruct (packet_lines_records (length pkt) pkt (le_n _))
      as (pr & sk & fi & H1 & H2 & H3 & H4).
    exists pr, sk, fi. repeat split; auto.
    intros Hpf. eapply Forall_impl; [exact H3|].
    intros r Hr. now apply short_line_rejected.
Qed.

End PacketClaims.

(** ** The packet loop on a sample packet *)

Section PacketSamples.
Import Sample.

(** C9, witness: a packet of two records, the second of which does not
    parse. *)
Lemma packet_records_processed_witness :
  run os (packet_loop [] None (length packet_two) jan2 src packet_two (Some manager))
      (empty_fs jan2) =
  run os (process_all [] None jan2 src (packet_lines (length packet_two) packet_two)
                      (Some manager))
      (empty_fs jan2).
Proof.
  exact (proj1 (packet_records_processed (RT := runtime) [] None jan2 src packet_two
                  (Some manager) (length packet_two) (le_n _)) fs os (empty_fs jan2)).
Defined.

(** C9, counterexample: the packet holds two newline-terminated records;
    after the first, four bytes are left and the loop ends, so the record
    [xyz] is never parsed and the error it would give is never logged. *)
Lemma short_last_record_not_processed :
  records (length packet_short_tail) packet_short_tail
    = [B "dev1 42 12.5 3 2|hello world"; B "xyz"] /\
  packet_lines (length packet_short_tail) packet_short_tail
    = [B "dev1 42 12.5 3 2|hello world"] /\
  fst (parseLine [] jan2 src (B "xyz")) = inl MissingDelimiter /\
  existsb is_klog_error
    (snd (run os (handle_packet [] None src packet_short_tail (Some manager))
              (empty_fs jan2))) = false /\
  existsb is_file_write
    (snd (run os (handle_packet [] None src packet_short_tail (Some manager))
              (empty_fs jan2))) = true.
Proof.
  split; [vm_compute; reflexivity|]. split; [vm_compute; reflexivity|].
  split; [reflexivity|]. split; vm_compute; reflexivity.
Qed.

End PacketSamples.

(** * Further properties of the parser *)

Section ParserMore.
Context {RT : GoRuntime}.
Variable tsFormat : bytes.
Import GoBytes Strconv.

Lemma Cut_found_iff (s : bytes) (sep : ascii) :
  snd (Cut s sep) = true <-> In sep s.
Proof.
  induction s as [|c s IH]; simpl.
  - split; [discriminate | tauto].
  - destruct (Ascii.eqb c sep) eqn:E; simpl.
    + apply Ascii.eqb_eq in E. tauto.
    + apply eqb_false_ne in E. destruct (Cut s sep) as [[b a] f]. simpl in *.
      rewrite IH. intuition congruence.
Qed.

Lemma Split_length (s : bytes) (sep : ascii) :
  length (Split s sep) = S (count_occ ascii_dec s sep).
Proof.
  induction s as [|c s IH]; simpl; [reflexivity|].
  destruct (Ascii.eqb c sep) eqn:E.
  - apply Ascii.eqb_eq in E. subst. simpl. rewrite IH.
    destruct (ascii_dec sep sep); congruence.
  - apply eqb_false_ne in E. destruct (ascii_dec c sep); [congruence|].
    destruct (Split s sep) as [|p ps]; simpl in *; congruence.
Qed.

Lemma Split_first (s : bytes) (sep : ascii) :
  nth 0 (Split s sep) [] = fst (fst (Cut s sep)).
Proof.
  induction s as [|c s IH]; simpl; [reflexivity|].
  destruct (Ascii.eqb c sep); [reflexivity|].
  destruct (Cut s sep) as [[b a] f]. simpl in *.
  destruct (Split s sep) as [|p ps]; simpl in *; congruence.
Qed.

(** X1: [parseLine] answers "missing msg delimiter" for the lines that hold
    no [|], and for no other line. *)
Theorem missing_delimiter_iff ts src line :
  fst (parseLine tsFormat ts src line) = inl MissingDelimiter <-> ~ In "|"%char line.
Proof.
  rewrite <- Cut_found_iff. unfold parseLine.
  destruct (Cut line "|") as [[info msg] found]. simpl.
  destruct found; simpl.
  - split; [|congruence]. intros H. exfalso.
    repeat match type of H with
           | context [if ?b then _ else _] => destruct b
           | context [match ?o with Some _ => _ | None => _ end] => destruct o
           end; simpl in H; discriminate H.
  - split; [congruence | reflexivity].
Qed.

(** X2: on a line that holds a [|], [parseLine] answers "invalid number of
    parts" exactly when the text before the first [|] does not hold exactly
    four spaces. *)
Theorem malformed_header_iff ts src line :
  In "|"%char line ->
  (fst (parseLine tsFormat ts src line) = inl MalformedHeader
   <-> count_occ ascii_dec (fst (fst (Cut line "|"))) " "%char <> 4%nat).
Proof.
  intros Hin. apply Cut_found_iff in Hin. unfold parseLine.
  destruct (Cut line "|") as [[info msg] found]. simpl in *. subst found. simpl.
  pose proof (Split_length info " "%char) as Hl.
  destruct (length (Split info " ") =? 5)%nat eqn:E; simpl.
  - apply Nat.eqb_eq in E. split; [|lia]. intros H. exfalso.
    repeat match type of H with
           | context [if ?b then _ else _] => destruct b
           | context [match ?o with Some _ => _ | None => _ end] => destruct o
           end; simpl in H; discriminate H.
  - apply Nat.eqb_neq in E. split; [lia | reflexivity].
Qed.

(** X3: on a line whose header has five fields, [parseLine] answers
    "invalid device id" exactly when the first field is empty or longer
    than 50 bytes. *)
Theorem invalid_device_id_iff ts src line :
  In "|"%char line ->
  count_occ ascii_dec (fst (fst (Cut line "|"))) " "%char = 4%nat ->
  (fst (parseLine tsFormat ts src line) = inl InvalidDeviceId
   <-> let id := fst (fst (Cut (fst (fst (Cut line "|"))) " ")) in
       (length id = 0 \/ 50 < length id)%nat).
Proof.
  intros Hin Hc. apply Cut_found_iff in Hin. unfold parseLine.
  destruct (Cut line "|") as [[info msg] found]. simpl in *. subst found. simpl.
  pose proof (Split_length info " "%char) as Hl. rewrite Hc in Hl.
  rewrite Hl. cbn [Nat.eqb negb nth]. rewrite Split_first. cbv zeta.
  generalize (length (fst (fst (Cut info " ")))). intros n.
  destruct (Nat.ltb_spec 0 n) as [E0|E0]; destruct (Nat.leb_spec n 50) as [E50|E50];
    cbn [andb negb].
  2-4: split; [intros _; lia | reflexivity].
  split; [|lia]. intros H. exfalso.
  repeat match type of H with
         | context [match ?o with Some _ => _ | None => _ end] => destruct o
         end; simpl in H; discriminate H.
Qed.

(** The buffer and the safe id after a successful parse. *)
Lemma parsed_buffer_shape ts src line li line' :
  parseLine tsFormat ts src line = (inr li, line') ->
  line = DeviceID li ++ drop (length (DeviceID li)) line /\
  line' = map sanitize_byte (DeviceID li) ++ drop (length (DeviceID li)) line /\
  DeviceIDSafe li = map sanitize_byte (DeviceID li).
Proof.
  intros H. apply parseLine_ok_inv in H
    as (info & p0 & p1 & p2 & p3 & p4 & v & Hcut & Hsp & Hlen & Hid & _ & _ & _ & _ & _ & _
        & Hl & Hsafe).
  apply Cut_found in Hcut as [Hline _].
  pose proof (Split_head info " "%char) as Hh. rewrite Hsp in Hh. simpl in Hh.
  assert (Hp : take (length p0) line = p0).
  { rewrite Hline, take_app_le; [exact Hh|].
    rewrite <- Hh at 1. rewrite length_take. lia. }
  assert (Hn : (length p0 <= length line)%nat).
  { rewrite <- Hp at 1. rewrite length_take. lia. }
  rewrite Hid, Hsafe, Hl.
  rewrite sanitize_in_place_take by exact Hn. rewrite Hp.
  repeat split.
  - rewrite <- Hp at 1. now rewrite take_drop.
  - rewrite take_app_length' by now rewrite length_map. reflexivity.
Qed.

Lemma uint64_of_float_range (f : Float64.float64) :
  0 <= uint64_of_float f < 2 ^ 64.
Proof.
  unfold uint64_of_float.
  assert (Hm : forall z, 0 <= z mod 2 ^ 64 < 2 ^ 64)
    by (intros z; apply Z.mod_pos_bound; reflexivity).
  destruct (Float64.trunc f) as [z|]; [|apply Hm].
  destruct ((0 <=? z) && (z <? 2 ^ 64)) eqn:E; [|apply Hm].
  apply andb_true_iff in E as [E1 E2].
  apply Z.leb_le in E1. apply Z.ltb_lt in E2. lia.
Qed.

Lemma Split_parts_no_sep (s : bytes) (sep : ascii) (p : bytes) :
  In p (Split s sep) -> ~ In sep p.
Proof.
  revert p. induction s as [|c s IH]; simpl; intros p Hp.
  - destruct Hp as [<-|[]]. tauto.
  - destruct (Ascii.eqb c sep) eqn:E.
    + destruct Hp as [<-|Hp]; [tauto | now apply IH].
    + apply eqb_false_ne in E.
      destruct (Split s sep) as [|q qs]; simpl in Hp.
      * destruct Hp as [<-|[]]. simpl. intuition congruence.
      * destruct Hp as [<-|Hp].
        -- simpl. intros [H|H]; [congruence|]. revert H. apply IH. now left.
        -- apply IH. now right.
Qed.

(** X4: what holds of every event [parseLine] returns: the device id has 1
    to 50 bytes and neither a space nor a [|]; the safe id has the same
    length and only bytes of the allow-set; the sequence number and the
    uptime fit 64 bits, the file descriptor and the level 32 bits. *)
Theorem parsed_event_invariants ts src line li line' :
  parseLine tsFormat ts src line = (inr li, line') ->
  (1 <= length (DeviceID li) <= 50)%nat /\
  ~ In " "%char (DeviceID li) /\ ~ In "|"%char (DeviceID li) /\
  length (DeviceIDSafe li) = length (DeviceID li) /\
  Forall (fun c => safeChars c = true) (DeviceIDSafe li) /\
  0 <= SeqNum li < 2 ^ 64 /\ 0 <= UptimeMs li < 2 ^ 64 /\
  0 <= FD li < 2 ^ 32 /\ 0 <= Level li < 2 ^ 32.
Proof.
  intros H. pose proof (parsed_buffer_shape ts src line _ _ H) as (_ & _ & Hsafe).
  apply parseLine_ok_inv in H
    as (info & p0 & p1 & p2 & p3 & p4 & v & Hcut & Hsp & Hlen & Hid & H1 & _ & Hu & H3 & H4 & _).
  apply Cut_found in Hcut as [Hline Hbar].
  subst p0. split; [lia|].
  split.
  { apply (Split_parts_no_sep info " "%char). rewrite Hsp. now left. }
  split.
  { intros Hin. apply Hbar. pose proof (Split_head info " "%char) as Hh.
    rewrite Hsp in Hh. simpl in Hh. rewrite <- Hh in Hin.
    rewrite <- (take_drop (length (DeviceID li)) info). apply in_or_app. now left. }
  rewrite Hsafe. split; [apply length_map|].
  split.
  { apply List.Forall_forall. intros c Hc. apply in_map_iff in Hc as [c0 [<- _]].
    apply sanitize_byte_safe. }
  split; [apply ParseUint_range in H1; lia|].
  split; [rewrite Hu; apply uint64_of_float_range|].
  split; [apply ParseUint_range in H3 | apply ParseUint_range in H4]; lia.
Qed.

(** X5: the message of a parsed event is everything after the first [|] of
    the line, byte for byte, whatever it holds. *)
Theorem message_is_rest_of_line ts src line li line' :
  parseLine tsFormat ts src line = (inr li, line') ->
  exists header, line = header ++ "|"%char :: Msg li /\ ~ In "|"%char header.
Proof.
  intros H. apply parseLine_ok_inv in H as (info & p0 & p1 & p2 & p3 & p4 & v & Hcut & _).
  apply Cut_found in Hcut. eauto.
Qed.

Lemma map_sanitize_id (s : bytes) :
  map sanitize_byte s = s <-> Forall (fun c => safeChars c = true) s.
Proof.
  induction s as [|c s IH]; simpl.
  - split; [constructor | reflexivity].
  - split.
    + intros H. injection H as Hc Hs. constructor.
      * rewrite <- Hc. apply sanitize_byte_safe.
      * now apply IH.
    + intros H. inversion H as [|? ? Hc Hs]; subst.
      unfold sanitize_byte at 1. rewrite Hc. f_equal. now apply IH.
Qed.

(** X6: a successful [parseLine] leaves the line buffer as it was exactly
    when every byte of the device id is in the allow-set, and that is also
    exactly when the safe id equals the device id. *)
Theorem buffer_unchanged_iff_id_safe ts src line li line' :
  parseLine tsFormat ts src line = (inr li, line') ->
  (line' = line <-> Forall (fun c => safeChars c = true) (DeviceID li)) /\
  (DeviceIDSafe li = DeviceID li <-> Forall (fun c => safeChars c = true) (DeviceID li)).
Proof.
  intros H. pose proof (parsed_buffer_shape ts src line _ _ H) as (Hl & Hl' & Hs).
  rewrite Hs. split; [|apply map_sanitize_id].
  rewrite <- map_sanitize_id. rewrite Hl'. rewrite Hl at 2. split.
  - intros E. now apply app_inv_tail in E.
  - intros ->. reflexivity.
Qed.

End ParserMore.

Section ParserMoreSamples.
Import Sample.

(** X2, witness: a header of three fields. *)
Lemma malformed_header_iff_witness :
  fst (parseLine [] jan2 src (B "dev1 42 3|hello")) = inl MalformedHeader.
Proof.
  apply (proj2 (malformed_header_iff (RT := runtime) [] jan2 src (B "dev1 42 3|hello")
                  ltac:(cbv; tauto))).
  vm_compute. discriminate.
Defined.

(** X3, witness: a device id of 51 bytes. *)
Lemma invalid_device_id_iff_witness :
  fst (parseLine [] jan2 src (repeat "a"%char 51 ++ B " 1 1.0 1 1|x")) = inl InvalidDeviceId.
Proof.
  apply (proj2 (invalid_device_id_iff (RT := runtime) [] jan2 src
                  (repeat "a"%char 51 ++ B " 1 1.0 1 1|x")
                  ltac:(cbv; tauto) ltac:(reflexivity))).
  vm_compute. right. lia.
Defined.

(** X4, witness: the device id [my*dev!]. *)
Lemma parsed_event_invariants_witness :
  exists li line',
    parseLine [] jan2 src (B "my*dev! 42 1.5 3 2|x") = (inr li, line') /\
    Forall (fun c => safeChars c = true) (DeviceIDSafe li).
Proof.
  eexists. eexists. split; [reflexivity|].
  exact (proj1 (proj2 (proj2 (proj2 (proj2
    (parsed_event_invariants (RT := runtime) [] jan2 src (B "my*dev! 42 1.5 3 2|x")
       _ _ eq_refl)))))).
Defined.

(** X5, witness: a message that holds a [|] and spaces. *)
Lemma message_is_rest_of_line_witness :
  exists li line' header,
    parseLine [] jan2 src (B "dev1 42 1.5 3 2|a | b") = (inr li, line') /\
    B "dev1 42 1.5 3 2|a | b" = header ++ "|"%char :: Msg li.
Proof.
  destruct (message_is_rest_of_line (RT := runtime) [] jan2 src
              (B "dev1 42 1.5 3 2|a | b") _ _ eq_refl) as [header [Hh _]].
  eexists. eexists. exists header. split; [reflexivity | exact Hh].
Defined.

(** X6, witness: an id of allowed bytes only. *)
Lemma buffer_unchanged_iff_id_safe_witness :
  snd (parseLine [] jan2 src (B "dev-1.a 42 1.5 3 2|x")) = B "dev-1.a 42 1.5 3 2|x".
Proof.
  apply (proj2 (proj1 (buffer_unchanged_iff_id_safe (RT := runtime) [] jan2 src
                         (B "dev-1.a 42 1.5 3 2|x") _ _ eq_refl))).
  repeat constructor.
Defined.

End ParserMoreSamples.

(** * Timestamp formats *)

Section TimestampFacts.
Context {RT : GoRuntime}.

Lemma switch_on_In tag cases layout :
  switch_on tag cases = Some layout -> In (tag, layout) cases.
Proof.
  induction cases as [|[name result] rest IH]; simpl; [discriminate|].
  case_bool_decide as Hd.
  - intros [= <-]. subst. now left.
  - intros Hs. right. now apply IH.
Qed.

Lemma layout_empty_iff (spec : bytes) :
  ParseTimeStampFormatSpec spec = [] <-> spec = [] \/ spec = B "none".
Proof.
  unfold ParseTimeStampFormatSpec.
  destruct (switch_on spec layout_names) as [layout|] eqn:E.
  - apply switch_on_In in E. simpl in E.
    repeat (destruct E as [E|E];
            [injection E as <- <-;
             split; [intros Hl; first [discriminate Hl | tauto]
                    | intros [Hs|Hs]; first [discriminate Hs | reflexivity]] |]).
    destruct E.
  - split.
    + intros ->. discriminate E.
    + intros [->| ->]; discriminate E.
Qed.

Lemma layout_idempotent (spec : bytes) :
  ParseTimeStampFormatSpec (ParseTimeStampFormatSpec spec) = ParseTimeStampFormatSpec spec.
Proof.
  unfold ParseTimeStampFormatSpec at 2 3.
  destruct (switch_on spec layout_names) as [layout|] eqn:E.
  - apply switch_on_In in E. simpl in E.
    repeat (destruct E as [E|E]; [injection E as <- <-; reflexivity |]).
    destruct E.
  - unfold ParseTimeStampFormatSpec. now rewrite E.
Qed.

(** X7: [ParseTimeStampFormatSpec] gives the empty layout for the names ""
    and "none" and for nothing else, and applying it to its own result
    changes nothing (no layout it returns is itself one of the names). *)
Theorem ParseTimeStampFormatSpec_empty_and_idempotent (spec : bytes) :
  (ParseTimeStampFormatSpec spec = [] <-> spec = [] \/ spec = B "none") /\
  ParseTimeStampFormatSpec (ParseTimeStampFormatSpec spec) = ParseTimeStampFormatSpec spec.
Proof. split; [apply layout_empty_iff | apply layout_idempotent]. Qed.

(** X8: with the flag [--timestamp-format] empty or "none", the timestamp
    string of every parsed event is empty and [time.Format] is not asked;
    with any other flag it is the time of receipt in the layout the flag
    names. *)
Theorem timestamp_string_of_flag flag ts src line li line' :
  parseLine (startup_tsFormat flag) ts src line = (inr li, line') ->
  TimestampStr li =
    if bool_decide (flag = [] \/ flag = B "none") then []
    else time_Format ts (ParseTimeStampFormatSpec flag).
Proof.
  intros H.
  assert (Hts : TimestampStr li = FormatTimestamp (startup_tsFormat flag) ts).
  { unfold parseLine in H.
    destruct (GoBytes.Cut line "|") as [[info msg] found].
    repeat match type of H with
           | context [if ?b then _ else _] => destruct b
           | context [match ?o with Some _ => _ | None => _ end] => destruct o
           end; inversion H; reflexivity. }
  rewrite Hts. unfold FormatTimestamp, startup_tsFormat.
  pose proof (proj1 (layout_empty_iff flag)) as He.
  destruct flag as [|c flag].
  - reflexivity.
  - cbn [length Nat.ltb Nat.leb].
    case_bool_decide as Hn.
    + destruct Hn as [Hn|Hn]; [discriminate|]. rewrite Hn. reflexivity.
    + destruct (length (ParseTimeStampFormatSpec (c :: flag)) =? 0)%nat eqn:El;
        [|reflexivity].
      apply Nat.eqb_eq in El. apply length_zero_iff_nil in El.
      apply He in El. tauto.
Qed.

End TimestampFacts.

Section TimestampSamples.
Import Sample.

(** X8, witness: the flag "none". *)
Lemma timestamp_string_of_flag_witness :
  exists li line',
    parseLine (startup_tsFormat (B "none")) jan2 src (B "dev1 42 12.5 3 2|hello")
    = (inr li, line') /\ TimestampStr li = [].
Proof.
  eexists. eexists. split; [reflexivity|].
  exact (timestamp_string_of_flag (RT := runtime) (B "none") jan2 src
           (B "dev1 42 12.5 3 2|hello") _ _ eq_refl).
Defined.

End TimestampSamples.

(** * Further properties of the file manager *)

Section FileManagerMore.
Context {RT : GoRuntime} {W : Type} (h : handler W).

(** X9: [Close] leaves the handle without a file and with its name; when a
    file was open it is closed once and the result of that close is
    returned; when none was open nothing is called; and a second [Close]
    does nothing. *)
Theorem close_releases_once di w :
  let r := run h (Close di) w in
  let di' := snd (fst (fst r)) in
  fd di' = None /\ fname di' = fname di /\ lastUsed di' = lastUsed di /\
  Close di' = Ret (None, di') /\
  match fd di with
  | Some f => exists res,
      snd r = [EvKlogInfof (B "Closed %s") [fname di]; EvFileClose f res] /\
      fst (fst (fst r)) = res
  | None => snd r = [] /\ di' = di /\ fst (fst (fst r)) = None
  end.
Proof.
  unfold Close. destruct (fd di) as [f|] eqn:Ef; simpl.
  - destruct (h _ (KlogInfof _ _) w) as [[] w1].
    destruct (h _ (FileClose f) w1) as [res w2]. simpl.
    repeat split. eauto.
  - rewrite Ef. repeat split; auto.
Qed.

(** X10: [WriteLine] keeps the three templates of the manager, leaves the
    handle of every other device as it was, and the device of the line has
    a handle afterwards, whatever happened. *)
Theorem WriteLine_frame fm li w :
  let fm' := fst (fst (run h (WriteLine fm li) w)) in
  nameTmpl fm' = nameTmpl fm /\ latestNameTmpl fm' = latestNameTmpl fm /\
  recordTmpl fm' = recordTmpl fm /\
  (forall key, key <> DeviceIDSafe li -> devices fm' !! key = devices fm !! key) /\
  is_Some (devices fm' !! DeviceIDSafe li).
Proof.
  cbv zeta. pose proof (run_WriteLine h fm li w) as Hr. cbv zeta in Hr.
  destruct (run h (WriteLine fm li) w) as [[fm' w'] tr]. cbn [fst snd] in *.
  inversion Hr; subst; simpl; repeat split;
    try (intros key Hk; now apply lookup_insert_ne);
    rewrite lookup_insert_eq; eauto.
Qed.

Lemma open_outcome_state nt lt li di err di' tr name :
  open_outcome nt lt li di err di' tr ->
  execTmpl nt li = inr name ->
  fname di' = name /\
  (fd di' = None <-> existsb is_rotation_failure tr = true).
Proof.
  intros Ho Hn.
  inversion Ho as [ e He | n0 Hn0 Hf Hfd | n0 cl e Hn0 Hs Hc | n0 cl e Hn0 Hs Hc
                  | n0 cl f e0 links Hn0 Hs Hc Hl ]; subst; try congruence;
    try (assert (n0 = name) by congruence; subst n0).
  - split; [congruence|]. simpl. split; [tauto | discriminate].
  - destruct (closing_quiet _ _ Hc) as (_ & _ & _ & Hq & _).
    split; [reflexivity|]. rewrite existsb_app, Hq. simpl. tauto.
  - destruct (closing_quiet _ _ Hc) as (_ & _ & _ & Hq & _).
    split; [reflexivity|]. rewrite existsb_app, Hq. simpl. tauto.
  - destruct (closing_quiet _ _ Hc) as (_ & _ & _ & Hq & _).
    destruct (link_quiet _ _ _ _ _ Hl) as (_ & Hq2).
    split; [reflexivity|]. rewrite existsb_app, Hq. simpl. rewrite Hq2.
    split; discriminate.
Qed.

Lemma In_writes f0 data res f writes :
  Forall (is_write_to f) writes -> In (EvFileWrite f0 data res) writes -> f0 = f.
Proof.
  intros Hw Hin. apply (proj1 (List.Forall_forall _ _) Hw) in Hin.
  destruct Hin as (d & r & E). congruence.
Qed.

Lemma no_write_not_In (tr : list event) f data res :
  existsb is_file_write tr = false -> ~ In (EvFileWrite f data res) tr.
Proof.
  intros Hex Hin. assert (existsb is_file_write tr = true); [|congruence].
  apply existsb_exists. eexists. split; [exact Hin | reflexivity].
Qed.

(** X11: after [WriteLine] for a line whose file name is [name], the
    handle of the device carries that name; it holds no file exactly when
    a directory creation or a file open failed in the call; and every write
    of the call went to the file the handle holds. *)
Theorem WriteLine_handle_state fm li name w :
  execTmpl (nameTmpl fm) li = inr name ->
  let fm' := fst (fst (run h (WriteLine fm li) w)) in
  let tr := snd (run h (WriteLine fm li) w) in
  exists di',
    devices fm' !! DeviceIDSafe li = Some di' /\
    fname di' = name /\
    (fd di' = None <-> existsb is_rotation_failure tr = true) /\
    (forall f data res, In (EvFileWrite f data res) tr -> fd di' = Some f).
Proof.
  intros Hn. cbv zeta.
  pose proof (run_WriteLine h fm li w) as Hr. cbv zeta in Hr.
  destruct (run h (WriteLine fm li) w) as [[fm' w'] tr]. cbn [fst snd] in *.
  inversion Hr as [di pre e di' tro Hh Ho | di pre di' tro f writes res now Hh Ho Hfd Hw];
    subst;
    destruct (open_outcome_state _ _ _ _ _ _ _ _ Ho Hn) as (Hname & Hiff);
    destruct (handle_for_quiet _ _ _ _ Hh) as (Hqw & _ & _ & Hqr & _);
    pose proof (open_no_write _ _ _ _ _ _ _ Ho) as Hno.
  - exists di'. split; [apply lookup_insert_eq|]. split; [exact Hname|]. split.
    + rewrite !existsb_app, Hqr. simpl. rewrite orb_false_r. exact Hiff.
    + intros f data res Hin. exfalso. revert Hin. apply no_write_not_In.
      rewrite !existsb_app, Hqw, Hno. reflexivity.
  - exists (set_lastUsed di' now). split; [apply lookup_insert_eq|].
    split; [exact Hname|]. split.
    + simpl. rewrite !existsb_app, Hqr.
      rewrite (existsb_writes is_rotation_failure f writes) by auto.
      simpl. rewrite !orb_false_r. exact Hiff.
    + intros f0 data res0 Hin. simpl. rewrite Hfd. f_equal. symmetry.
      apply in_app_or in Hin as [Hin|Hin];
        [exfalso; revert Hin; now apply no_write_not_In|].
      apply in_app_or in Hin as [Hin|Hin];
        [exfalso; revert Hin; now apply no_write_not_In|].
      apply in_app_or in Hin as [Hin|Hin]; [eapply In_writes; eauto|].
      destruct Hin as [E|[E|[]]]; congruence.
Qed.

(** X12: when the device has a file open under another name (the day has
    changed), [WriteLine] first closes that file, once, and only then asks
    for the directory of the new file. *)
Theorem rotation_closes_old_file_first fm li di f0 name w :
  devices fm !! DeviceIDSafe li = Some di -> fd di = Some f0 ->
  execTmpl (nameTmpl fm) li = inr name -> fname di <> name ->
  exists res made rest,
    snd (run h (WriteLine fm li) w)
    = EvKlogInfof (B "Closed %s") [fname di] :: EvFileClose f0 res
      :: EvMkdirAll (Filepath.Dir name) made :: rest /\
    existsb (fun ev => match ev with EvFileClose _ _ => true | _ => false end) rest
    = false.
Proof.
  intros Hdi Hfd Hn Hne.
  pose proof (run_WriteLine h fm li w) as Hr. cbv zeta in Hr.
  destruct (run h (WriteLine fm li) w) as [[fm' w'] tr]. cbn [fst snd] in *.
  assert (Hopen : forall err di' tro,
             open_outcome (nameTmpl fm) (latestNameTmpl fm) li di err di' tro ->
             exists res made rest,
               tro = EvKlogInfof (B "Closed %s") [fname di] :: EvFileClose f0 res
                     :: EvMkdirAll (Filepath.Dir name) made :: rest /\
               existsb (fun ev => match ev with EvFileClose _ _ => true | _ => false end)
                       rest = false).
  { intros err di' tro Ho.
    inversion Ho as [ e He | n0 Hn0 Hf Hfd0 | n0 cl e Hn0 Hs Hc | n0 cl e Hn0 Hs Hc
                    | n0 cl f e0 links Hn0 Hs Hc Hl ]; subst; try congruence;
      assert (n0 = name) by congruence; subst n0;
      unfold closing_events in Hc; rewrite Hfd in Hc; destruct Hc as [res ->];
      simpl; do 3 eexists; split; try reflexivity.
    inversion Hl; subst; try reflexivity. destruct r2; reflexivity. }
  inversion Hr as [d0 pre e di' tro Hh Ho | d0 pre di' tro f writes res now Hh Ho Hf Hw];
    subst; unfold handle_for in Hh; rewrite Hdi in Hh; destruct Hh as [-> ->];
    destruct (Hopen _ _ _ Ho) as (res0 & made & rest & -> & Hrest);
    exists res0, made; simpl; eexists; split; try reflexivity.
  - rewrite existsb_app, Hrest. reflexivity.
  - rewrite !existsb_app, Hrest.
    rewrite (existsb_writes _ f writes) by auto. reflexivity.
Qed.

End FileManagerMore.

Section WrittenBytes.
Context {RT : GoRuntime} {W : Type} (h : handler W).

Lemma written_data_app (t1 t2 : list event) :
  written_data (t1 ++ t2) = written_data t1 ++ written_data t2.
Proof.
  induction t1 as [|ev t1 IH]; simpl; [reflexivity|].
  destruct ev; simpl; rewrite IH; try reflexivity. now rewrite app_assoc.
Qed.

Lemma written_data_no_write (tr : list event) :
  existsb is_file_write tr = false -> written_data tr = [].
Proof.
  induction tr as [|ev tr IH]; simpl; [reflexivity|].
  destruct ev; simpl; try discriminate; exact IH.
Qed.

Lemma write_pieces_written (f : File) (pieces : list bytes) (w : W) :
  existsb is_write_failure (snd (run h (write_pieces (File_Write (Some f)) pieces) w)) = false ->
  written_data (snd (run h (write_pieces (File_Write (Some f)) pieces) w)) = concat pieces.
Proof.
  revert w. induction pieces as [|p ps IH]; intros w; simpl; [reflexivity|].
  destruct (h _ (FileWrite f p) w) as [r w1]. simpl.
  destruct r as [err|]; simpl; [discriminate|].
  specialize (IH w1).
  destruct (run h (write_pieces (File_Write (Some f)) ps) w1) as [[r2 w2] t2].
  simpl in *. intros Hf. now rewrite IH.
Qed.

Lemma Execute_written (t : Template) (f : File) (li : LineInfo) (w : W) :
  existsb is_write_failure (snd (run h (Execute t (File_Write (Some f)) li) w)) = false ->
  written_data (snd (run h (Execute t (File_Write (Some f)) li) w)) = concat (fst (t li)).
Proof.
  unfold Execute. destruct (t li) as [pieces failure]. rewrite run_bind. cbv zeta.
  pose proof (write_pieces_written f pieces w) as Hw.
  destruct (run h (write_pieces (File_Write (Some f)) pieces) w) as [[r w1] t1].
  simpl in *. destruct r; simpl; rewrite ?app_nil_r; exact Hw.
Qed.

(** X13: in a run of [WriteLine] in which no write failed, either the line
    was dropped, nothing was written and the open error is the last thing
    logged, or the bytes written are the pieces the record template renders
    for the event followed by one line feed, and the run ends with the
    clock read for [lastUsed]. *)
Theorem WriteLine_appends_rendered_line fm li w :
  let tr := snd (run h (WriteLine fm li) w) in
  existsb is_write_failure tr = false ->
  (written_data tr = concat (fst (recordTmpl fm li)) ++ [ "010"%char ] /\
   last tr = Some EvTimeNow) \/
  (written_data tr = [] /\
   exists e, last tr = Some (EvKlogErrorf (B "Failed to open log file: %v") [e])).
Proof.
  cbv zeta. unfold WriteLine. rewrite run_bind. cbv zeta.
  pose proof (run_handle_for h fm li w) as Hh. cbv zeta in Hh.
  destruct (run h (match devices fm !! DeviceIDSafe li with
                   | Some di => Ret di | None => _ end) w) as [[di w1] pre].
  cbn [fst snd] in *.
  rewrite run_bind. cbv zeta.
  pose proof (run_Open h (nameTmpl fm) (latestNameTmpl fm) li di w1) as Ho. cbv zeta in Ho.
  destruct (run h (Open (nameTmpl fm) (latestNameTmpl fm) li di) w1)
    as [[[err di'] w2] tr].
  cbn [fst snd] in *.
  destruct (handle_for_quiet _ _ _ _ Hh) as (Hqw & _).
  pose proof (open_no_write _ _ _ _ _ _ _ Ho) as Hno.
  destruct err as [e|].
  - simpl. destruct (h _ (KlogErrorf _ _) w2) as [[] w3]. simpl. intros _. right.
    split.
    + rewrite !written_data_app, (written_data_no_write pre), (written_data_no_write tr)
        by assumption. reflexivity.
    + exists e. now rewrite app_assoc, last_snoc.
  - destruct (open_ok_has_file _ _ _ _ _ _ Ho) as [f Hf]. rewrite Hf.
    rewrite run_bind. cbv zeta.
    pose proof (Execute_written (recordTmpl fm) f li w2) as He.
    destruct (run h (Execute (recordTmpl fm) (File_Write (Some f)) li) w2)
      as [[r3 w3] writes].
    cbn [fst snd] in *. simpl.
    destruct (h _ (FileWrite f _) w3) as [res w4].
    destruct (h _ TimeNow w4) as [now w5]. simpl.
    rewrite !existsb_app. intros Hf'.
    apply orb_false_iff in Hf' as [_ Hf']. apply orb_false_iff in Hf' as [_ Hf'].
    apply orb_false_iff in Hf' as [Hw _].
    left. split.
    + rewrite !written_data_app, (written_data_no_write pre), (written_data_no_write tr)
        by assumption.
      rewrite (He Hw). simpl. now rewrite ?app_nil_r.
    + replace (pre ++ tr ++ writes ++ [EvFileWrite f ["010"%char] res; EvTimeNow])
        with ((pre ++ tr ++ writes ++ [EvFileWrite f ["010"%char] res]) ++ [EvTimeNow])
        by (repeat (rewrite <- ?app_assoc; simpl); reflexivity).
      apply last_snoc.
Qed.

End WrittenBytes.

(** * The file names of [NewFileManager] *)

Section DefaultNames.
Context {RT : GoRuntime} {W : Type} (h : handler W).
Import GoBytes Filepath.







End DefaultNames.

(** * Further properties of [processLine] and of the packet loop *)

Section IngestionMore.
Context {RT : GoRuntime} {W : Type} (h : handler W).
Variable tsFormat : bytes.
Import GoBytes.

Lemma stdout_pieces_trace (pieces : list bytes) (w : W) :
  Forall (fun ev => is_stdout_write ev = true)
         (snd (run h (write_pieces (fun data => call (StdoutWrite data)) pieces) w)).
Proof.
  revert w. induction pieces as [|p ps IH]; intros w; simpl; [constructor|].
  destruct (h _ (StdoutWrite p) w) as [r w1]. simpl.
  destruct r as [err|]; simpl; [repeat constructor|].
  specialize (IH w1).
  destruct (run h (write_pieces _ ps) w1) as [[r2 w2] t2]. simpl in *.
  constructor; [reflexivity | exact IH].
Qed.

Lemma stdout_Execute_trace (t : Template) (li : LineInfo) (w : W) :
  Forall (fun ev => is_stdout_write ev = true)
         (snd (run h (Execute t (fun data => call (StdoutWrite data)) li) w)).
Proof.
  unfold Execute. destruct (t li) as [pieces failure]. rewrite run_bind. cbv zeta.
  pose proof (stdout_pieces_trace pieces w) as Hw.
  destruct (run h (write_pieces _ pieces) w) as [[r w1] t1].
  simpl in *. destruct r; simpl; rewrite ?app_nil_r; exact Hw.
Qed.

Lemma writeline_no_stdout fm li fm' tr :
  writeline_outcome fm li fm' tr -> existsb is_stdout_write tr = false.
Proof.
  assert (Hlink : forall lt di err links,
             link_outcome lt li di err links -> existsb is_stdout_write links = false).
  { intros lt di err links Hl. inversion Hl; subst; try destruct r2; reflexivity. }
  assert (Hclose : forall di cl, closing_events di cl -> existsb is_stdout_write cl = false).
  { intros di cl. unfold closing_events. destruct (fd di).
    - intros [res ->]. reflexivity.
    - intros ->. reflexivity. }
  assert (Hopen : forall nt lt di err di' tro,
             open_outcome nt lt li di err di' tro -> existsb is_stdout_write tro = false).
  { intros nt lt di err di' tro Ho.
    inversion Ho as [ | | ? ? ? ? ? Hc | ? ? ? ? ? Hc | ? ? ? ? ? ? ? Hc Hl ];
      subst; try reflexivity;
      rewrite existsb_app, (Hclose _ _ Hc); simpl; try reflexivity.
    exact (Hlink _ _ _ _ Hl). }
  assert (Hpre : forall di pre, handle_for fm li di pre -> existsb is_stdout_write pre = false).
  { intros di pre. unfold handle_for. destruct (devices fm !! DeviceIDSafe li).
    - intros [_ ->]. reflexivity.
    - intros (_ & _ & ->). reflexivity. }
  inversion 1 as [di pre e di' tro Hh Ho | di pre di' tro f writes res now Hh Ho Hfd Hw];
    subst; rewrite !existsb_app, (Hpre _ _ Hh), (Hopen _ _ _ _ _ _ Ho); simpl;
    [reflexivity|].
  rewrite (existsb_writes is_stdout_write f writes) by auto. reflexivity.
Qed.

(** X15: for a line that parses, with the console sink on, [processLine]
    first writes the rendered console record and a line feed to standard
    output, the same whatever the file sink is, and only then lets the file
    manager work; the file manager never writes to standard output, and
    with the file sink off nothing follows the line feed. It returns no
    error, whatever the writes answered. *)
Theorem console_before_file ts src line li line' t fm w :
  parseLine tsFormat ts src line = (inr li, line') ->
  let r := run h (processLine tsFormat (Some t) ts src line fm) w in
  let console := snd (run h (Execute t (fun data => call (StdoutWrite data)) li) w) in
  exists res files,
    snd r = console ++ EvStdoutWrite [ "010"%char ] res :: files /\
    Forall (fun ev => is_stdout_write ev = true) console /\
    existsb is_stdout_write files = false /\
    (fm = None -> files = []) /\
    fst (fst (fst (fst r))) = None /\
    snd (fst (fst r)) = line'.
Proof.
  intros Hp. cbv zeta. unfold processLine. rewrite Hp.
  rewrite !run_bind. cbv zeta.
  pose proof (stdout_Execute_trace t li w) as Hc.
  destruct (run h (Execute t (fun data => call (StdoutWrite data)) li) w)
    as [[r1 w1] console].
  cbn [fst snd] in *.
  assert (E2 : exists res w2,
             run h (call (StdoutWrite ["010"%char]) ;;; Ret tt) w1
             = (tt, w2, [EvStdoutWrite ["010"%char] res])).
  { simpl. destruct (h _ (StdoutWrite ["010"%char]) w1) as [res w2]. eauto. }
  destruct E2 as (res & w2 & E2). rewrite E2. cbn [fst snd].
  rewrite run_bind. cbv zeta.
  destruct fm as [m|].
  - rewrite run_bind. cbv zeta.
    pose proof (run_WriteLine h m li w2) as Hw. cbv zeta in Hw.
    destruct (run h (WriteLine m li) w2) as [[m' w3] files]. cbn [fst snd run] in *.
    exists res, files. rewrite ?app_nil_r.
    repeat split; auto; try discriminate;
      try (eapply writeline_no_stdout; eassumption);
      try (now rewrite <- app_assoc).
  - cbn [fst snd run]. exists res, []. rewrite ?app_nil_r.
    repeat split; auto; try (now rewrite <- app_assoc).
Qed.

Lemma TrimRight_In (s cutset : bytes) (x : ascii) :
  In x (TrimRight s cutset) -> In x s.
Proof.
  induction s as [|c s IH]; simpl; [tauto|].
  destruct (TrimRight s cutset) as [|c' t'] eqn:E.
  - destruct (in_cutset cutset c); simpl; tauto.
  - simpl. intros [H|H]; [now left | right; apply IH; exact H].
Qed.

Lemma TrimRight_last (s cutset : bytes) (x : ascii) :
  last (TrimRight s cutset) = Some x -> in_cutset cutset x = false.
Proof.
  induction s as [|c s IH]; simpl; [discriminate|].
  destruct (TrimRight s cutset) as [|c' t'] eqn:E.
  - destruct (in_cutset cutset c) eqn:Ec; simpl; [discriminate|].
    intros [= <-]. exact Ec.
  - intros H. apply IH. exact H.
Qed.

(** X16: no line the packet loop hands to [processLine] holds a line feed,
    and none ends in a carriage return. *)
Theorem packet_lines_trimmed fuel buf :
  Forall (fun l => ~ In "010"%char l /\ last l <> Some "013"%char)
         (packet_lines fuel buf).
Proof.
  revert buf. induction fuel as [|fuel IH]; intros buf; simpl; [constructor|].
  destruct (10 <? length buf)%nat; [|constructor].
  rewrite ReadBytes_Cut.
  pose proof (Cut_found_iff buf "010"%char) as Hiff.
  destruct (Cut buf "010") as [[before after] found] eqn:Ec. simpl in Hiff.
  assert (Hlast : forall s, last (TrimRight s crlf) <> Some "013"%char).
  { intros s Hl. apply TrimRight_last in Hl. discriminate Hl. }
  destruct found.
  - apply Cut_found in Ec as [_ Hn]. constructor; [|apply IH].
    rewrite TrimRight_snoc by reflexivity. split; [|apply Hlast].
    intros Hin. apply Hn. eapply TrimRight_In; eauto.
  - constructor; [|apply IH]. split; [|apply Hlast].
    intros Hin. apply TrimRight_In in Hin. apply Hiff in Hin. discriminate.
Qed.

End IngestionMore.

(** * The further properties on sample runs *)

Section MoreSamples.
Import Sample.

(** X11, witness: a first line for the day after the one whose file is
    open. *)
Lemma WriteLine_handle_state_witness :
  exists di',
    devices (fst (fst (run os (WriteLine (manager_open jan2) (hello jan3)) (fs_open jan2))))
      !! B "dev1" = Some di' /\
    fname di' = log_name jan3.
Proof.
  destruct (WriteLine_handle_state os (manager_open jan2) (hello jan3) (log_name jan3)
              (fs_open jan2) eq_refl) as (di' & H1 & H2 & _).
  exists di'. split; [exact H1 | exact H2].
Defined.

(** X12, witness: the same run. *)
Lemma rotation_closes_old_file_first_witness :
  exists res made rest,
    snd (run os (WriteLine (manager_open jan2) (hello jan3)) (fs_open jan2))
    = EvKlogInfof (B "Closed %s") [log_name jan2] :: EvFileClose 3%nat res
      :: EvMkdirAll (Filepath.Dir (log_name jan3)) made :: rest.
Proof.
  destruct (rotation_closes_old_file_first (RT := runtime) os (manager_open jan2) (hello jan3)
              _ 3%nat (log_name jan3) (fs_open jan2)
              (manager_open_lookup jan2) eq_refl eq_refl
              ltac:(intros H; apply (f_equal (fun s => nth 22 s "0"%char)) in H;
                    vm_compute in H; discriminate H))
    as (res & made & rest & H & _).
  exists res, made, rest. exact H.
Defined.

(** X13, witness: a line written to the open file of the day. *)
Lemma WriteLine_appends_rendered_line_witness :
  written_data (snd (run os (WriteLine (manager_open jan2) (hello jan2)) (fs_open jan2)))
  = B " 10.0.0.7:1993 I hello world" ++ nl.
Proof.
  destruct (WriteLine_appends_rendered_line os (manager_open jan2) (hello jan2)
              (fs_open jan2) ltac:(vm_compute; reflexivity))
    as [[H _]|[_ [e He]]].
  - exact H.
  - exfalso. vm_compute in He. discriminate He.
Defined.

(** X15, witness: console sink on, file sink off. *)
Lemma console_before_file_witness :
  exists res,
    snd (run os (processLine [] (Some fileFormat) jan2 src
                             (B "dev1 42 12.5 3 2|hello world") None) (empty_fs jan2))
    = snd (run os (Execute fileFormat (fun data => call (StdoutWrite data)) (hello jan2))
               (empty_fs jan2))
      ++ [EvStdoutWrite nl res].
Proof.
  destruct (console_before_file os [] jan2 src (B "dev1 42 12.5 3 2|hello world")
              (hello jan2) (B "dev1 42 12.5 3 2|hello world") fileFormat None
              (empty_fs jan2) eq_refl)
    as (res & files & H & _ & _ & Hnone & _).
  exists res. rewrite (Hnone eq_refl) in H. exact H.
Defined.


End MoreSamples.
